(** * InteractiveViz: filtering, brushing and reconciliation of the shot chart

    A shallow embedding of [src/components/InteractiveViz.js].  JavaScript
    numbers are IEEE-754 binary64 values, modelled by Rocq's primitive
    floats: comparisons involving NaN are false, [===] on numbers is
    [PrimFloat.eqb], and arithmetic rounds as the runtime does.  Strings are
    byte strings holding the UTF-8 text of the JavaScript strings; their
    order is that of their UTF-16 code units ([utf16]).

    The file has the JavaScript operations the component relies on
    ([JS]), the d3 operations it calls ([D3]), the component itself
    ([Viz]: normalisation, filter state, scales, the body of [redraw], the
    listeners, the nested calls that [brush.move] starts, the gestures on
    the brush, and the tooltip), and then the properties of each. *)

From Stdlib Require Import ZArith List Bool String Ascii DecimalString Floats Lia.
From Stdlib Require Import Permutation Sorted OrderedTypeEx.
Import ListNotations.

Set Warnings "-inexact-float".
Local Open Scope string_scope.
Local Open Scope Z_scope.

(* ================================================================= *)
(** ** JavaScript values and the runtime operations the component uses *)

Module JS.

(** The values a raw row, or a field copied from it, can hold. *)
Inductive jsval : Type :=
| JUndefined
| JNull
| JBool (b : bool)
| JNum (f : float)
| JStr (s : string).

(** [a === b] on numbers. *)
Definition num_eq (a b : float) : bool := PrimFloat.eqb a b.

(** [a === b]. *)
Definition strict_eq (a b : jsval) : bool :=
  match a, b with
  | JUndefined, JUndefined => true
  | JNull, JNull => true
  | JBool x, JBool y => Bool.eqb x y
  | JNum x, JNum y => num_eq x y
  | JStr x, JStr y => String.eqb x y
  | _, _ => false
  end.

(** SameValueZero, the comparison of [Array.prototype.includes] and of
    [Set]: as [===], except that NaN equals NaN. *)
Definition same_value_zero (a b : jsval) : bool :=
  match a, b with
  | JNum x, JNum y => num_eq x y || (PrimFloat.is_nan x && PrimFloat.is_nan y)
  | _, _ => strict_eq a b
  end.

(** [arr.includes(v)]. *)
Definition includes (arr : list jsval) (v : jsval) : bool :=
  existsb (fun e => same_value_zero e v) arr.

(** [Number.isFinite(x)] on a number. *)
Definition isFinite (x : float) : bool := PrimFloat.is_finite x.

(** *** Exact values and correctly rounded conversions *)

(** The binary64 value nearest to the rational [n/d] (ties to even), with
    the sign [neg]; overflow gives an infinity. *)
Definition Q_to_float (neg : bool) (n d : positive) : float :=
  SF2Prim (SFdiv prec emax (S754_finite neg n 0) (S754_finite false d 0)).

(** The number nearest to an integer. *)
Definition Z_to_float (z : Z) : float :=
  match z with
  | Z0 => PrimFloat.zero
  | Zpos p => Q_to_float false p 1
  | Zneg p => Q_to_float true p 1
  end.

(** A finite number as sign and exact fraction [num/den]. *)
Definition exact (x : float) : option (bool * Z * Z) :=
  match Prim2SF x with
  | S754_zero s => Some (s, 0, 1)
  | S754_finite s m e =>
      if 0 <=? e then Some (s, Zpos m * 2 ^ e, 1)
      else Some (s, Zpos m, 2 ^ (- e))
  | _ => None
  end.

(** [Math.floor(x)] as an integer, for a finite [x]. *)
Definition floor_Z (x : float) : option Z :=
  match exact x with
  | Some (false, n, d) => Some (n / d)
  | Some (true, n, d) => Some (- ((n + d - 1) / d))
  | None => None
  end.

(** *** Strings *)

Definition digits_of (z : Z) : string :=
  DecimalString.NilZero.string_of_uint (N.to_uint (Z.to_N z)).

Fixpoint repeat_char (c : ascii) (n : nat) : string :=
  match n with
  | O => EmptyString
  | S k => String c (repeat_char c k)
  end.

Definition zeros (n : Z) : string := repeat_char "0"%char (Z.to_nat n).

Definition slen (s : string) : Z := Z.of_nat (String.length s).

(** [s.slice(0, n)] and [s.slice(n)] for [0 <= n]. *)
Definition take_str (n : Z) (s : string) : string :=
  String.substring 0 (Z.to_nat n) s.
Definition drop_str (n : Z) (s : string) : string :=
  String.substring (Z.to_nat n) (String.length s - Z.to_nat n) s.

(** [s.padStart(n, "0")]. *)
Definition padStart0 (n : Z) (s : string) : string :=
  if n <=? slen s then s else zeros (n - slen s) ++ s.

(** *** Number to string *)

Definition pow10 (k : Z) : Z := 10 ^ (Z.max 0 k).

(** The decimal exponent [n] of a positive [num/den]:
    [10^(n-1) <= num/den < 10^n]. *)
Definition dec_exponent (num den : Z) : Z :=
  if den <=? num then slen (digits_of (num / den))
  else 1 - slen (digits_of ((den + num - 1) / num - 1)).

(** Number::toString, step 5, for [num/den] the magnitude of [x]: the
    least [k] and the [s] of [k] digits with [s * 10^(n-k)] rounding to
    that magnitude; of two such [s] the nearer, the even one on a tie. *)
Fixpoint shortest (fuel : nat) (x : float) (num den n k : Z) : Z * Z * Z :=
  let a := num * pow10 (k - n) in
  let b := den * pow10 (n - k) in
  let lo := a / b in
  let r := a mod b in
  let hi := lo + 1 in
  let back (s : Z) :=
    match s * pow10 (n - k), pow10 (k - n) with
    | Zpos p, Zpos q => num_eq (Q_to_float false p q) (PrimFloat.abs x)
    | _, _ => false
    end in
  let norm (s : Z) := if s =? 10 ^ k then (10 ^ (k - 1), n + 1, k) else (s, n, k) in
  let lo_first := (2 * r <? b) || ((2 * r =? b) && Z.even lo) in
  match fuel with
  | O => norm (if lo_first then lo else hi)
  | S fuel' =>
      if r =? 0 then norm lo
      else match back lo, back hi with
           | true, true => norm (if lo_first then lo else hi)
           | true, false => norm lo
           | false, true => norm hi
           | false, false => shortest fuel' x num den n (k + 1)
           end
  end.

(** Number::toString(x) in radix 10. *)
Definition NumberToString (x : float) : string :=
  if PrimFloat.is_nan x then "NaN"
  else match exact x with
  | None => if PrimFloat.ltb x 0 then "-Infinity" else "Infinity"
  | Some (neg, num, den) =>
      if num =? 0 then "0"
      else
        let '(s, n, k) := shortest 17 x num den (dec_exponent num den) 1 in
        let ds := digits_of s in
        let body :=
          if (k <=? n) && (n <=? 21) then ds ++ zeros (n - k)
          else if (0 <? n) && (n <=? 21) then take_str n ds ++ "." ++ drop_str n ds
          else if (-6 <? n) && (n <=? 0) then "0." ++ zeros (- n) ++ ds
          else
            let e := n - 1 in
            let es := (if e <? 0 then "-" else "+") ++ digits_of (Z.abs e) in
            if k =? 1 then ds ++ "e" ++ es
            else take_str 1 ds ++ "." ++ drop_str 1 ds ++ "e" ++ es in
        (if neg then "-" else "") ++ body
  end.

(** [x.toFixed(f)] for [0 <= f]. *)
Definition toFixed (x : float) (f : Z) : string :=
  match exact x with
  | None => NumberToString x
  | Some (neg, num, den) =>
      let sign := if neg && negb (num =? 0) then "-" else "" in
      if 10 ^ 21 * den <=? num then sign ++ NumberToString (PrimFloat.abs x)
      else
        let n := (2 * num * 10 ^ f + den) / (2 * den) in
        let m := digits_of n in
        let m := if (0 <? f) && (slen m <=? f) then zeros (f + 1 - slen m) ++ m else m in
        let k := slen m in
        sign ++ (if 0 <? f then take_str (k - f) m ++ "." ++ drop_str (k - f) m else m)
  end.

(** *** String to number *)

Definition code (c : ascii) : Z := Z.of_N (N_of_ascii c).

Definition is_digit (c : ascii) : bool := (48 <=? code c) && (code c <=? 57).

(** The value of a digit in a radix up to 16, if it is one. *)
Definition digit_in (radix : Z) (c : ascii) : option Z :=
  let n := code c in
  let v := if (48 <=? n) && (n <=? 57) then n - 48
           else if (97 <=? n) && (n <=? 102) then n - 87
           else if (65 <=? n) && (n <=? 70) then n - 55
           else 16 in
  if v <? radix then Some v else None.

(** The longest run of digits at the head of [s]: its value, its length
    and what follows. *)
Fixpoint read_digits (radix : Z) (s : string) (acc cnt : Z) : Z * Z * string :=
  match s with
  | String c r =>
      match digit_in radix c with
      | Some v => read_digits radix r (acc * radix + v) (cnt + 1)
      | None => (acc, cnt, s)
      end
  | EmptyString => (acc, cnt, s)
  end.

(** WhiteSpace and LineTerminator code points, in UTF-8: one byte (TAB, LF,
    VT, FF, CR, SP), two (U+00A0) or three (U+1680, U+2000..U+200A, U+2028,
    U+2029, U+202F, U+205F, U+3000, U+FEFF). *)
Definition ws1 (c : ascii) : bool :=
  let n := code c in ((9 <=? n) && (n <=? 13)) || (n =? 32).
Definition ws2 (c1 c2 : ascii) : bool :=
  (code c1 =? 194) && (code c2 =? 160).
Definition ws3 (c1 c2 c3 : ascii) : bool :=
  let a := code c1 in let b := code c2 in let c := code c3 in
  ((a =? 225) && (b =? 154) && (c =? 128))
  || ((a =? 226) && (b =? 128)
      && (((128 <=? c) && (c <=? 138)) || (c =? 168) || (c =? 169) || (c =? 175)))
  || ((a =? 226) && (b =? 129) && (c =? 159))
  || ((a =? 227) && (b =? 128) && (c =? 128))
  || ((a =? 239) && (b =? 187) && (c =? 191)).

Fixpoint skip_ws (s : string) : string :=
  match s with
  | String c1 r1 =>
      if ws1 c1 then skip_ws r1
      else match r1 with
           | String c2 r2 =>
               if ws2 c1 c2 then skip_ws r2
               else match r2 with
                    | String c3 r3 => if ws3 c1 c2 c3 then skip_ws r3 else s
                    | EmptyString => s
                    end
           | EmptyString => s
           end
  | EmptyString => s
  end.

Definition is_empty (s : string) : bool :=
  match s with EmptyString => true | _ => false end.

(** An optional sign at the head of [s]. *)
Definition read_sign (s : string) : bool * string :=
  match s with
  | String "-"%char r => (true, r)
  | String "+"%char r => (false, r)
  | _ => (false, s)
  end.

(** The number nearest to [m * 10^e10], signed. *)
Definition decimal_to_float (neg : bool) (m e10 : Z) : float :=
  match (m * pow10 e10)%Z, pow10 (- e10)%Z with
  | Zpos n, Zpos d => Q_to_float neg n d
  | _, _ => if neg then PrimFloat.neg_zero else PrimFloat.zero
  end.

(** StrUnsignedDecimalLiteral at the head of [s]: digits with an optional
    fraction and an optional exponent.  An [e] that no digits follow is
    not part of the literal. *)
Definition read_decimal (neg : bool) (s : string) : option (float * string) :=
  let '(ip, ni, r1) := read_digits 10 s 0 0 in
  let '(fp, nf, r2) :=
    match r1 with
    | String "."%char r => read_digits 10 r 0 0
    | _ => (0, 0, r1)
    end in
  let dot := match r1 with String "."%char _ => true | _ => false end in
  if (ni + nf =? 0) then None
  else
    let m := ip * 10 ^ nf + fp in
    let with_exp :=
      match r2 with
      | String c r =>
          if (code c =? 101) || (code c =? 69) then
            let '(eneg, r') := read_sign r in
            let '(ev, ne, r3) := read_digits 10 r' 0 0 in
            if ne =? 0 then None else Some ((if eneg then - ev else ev), r3)
          else None
      | EmptyString => None
      end in
    match with_exp with
    | Some (e, r3) => Some (decimal_to_float neg m (e - nf), r3)
    | None => Some (decimal_to_float neg m (- nf), r2)
    end.

(** NonDecimalIntegerLiteral: [0x], [0o] or [0b] and digits, unsigned. *)
Definition read_radix (s : string) : option (float * string) :=
  match s with
  | String "0"%char (String c r) =>
      let n := code c in
      let radix := if (n =? 120) || (n =? 88) then 16
                   else if (n =? 111) || (n =? 79) then 8
                   else if (n =? 98) || (n =? 66) then 2 else 0 in
      if radix =? 0 then None
      else let '(v, cnt, r') := read_digits radix r 0 0 in
           if cnt =? 0 then None else Some (Z_to_float v, r')
  | _ => None
  end.

Definition starts_with (p s : string) : bool := String.prefix p s.

(** StrNumericLiteral at the head of [s]. *)
Definition read_numeric (s : string) : option (float * string) :=
  match read_radix s with
  | Some res => Some res
  | None =>
      let '(neg, r) := read_sign s in
      if starts_with "Infinity" r
      then Some ((if neg then PrimFloat.neg_infinity else PrimFloat.infinity), drop_str 8 r)
      else read_decimal neg r
  end.

(** StringToNumber: blank is [+0]; a numeric literal between optional
    white space is its value; anything else is NaN. *)
Definition StringToNumber (s : string) : float :=
  let t := skip_ws s in
  if is_empty t then PrimFloat.zero
  else match read_numeric t with
       | Some (v, rest) => if is_empty (skip_ws rest) then v else PrimFloat.nan
       | None => PrimFloat.nan
       end.

(** *** Conversions of values *)

(** [+v]. *)
Definition ToNumber (v : jsval) : float :=
  match v with
  | JUndefined => PrimFloat.nan
  | JNull => PrimFloat.zero
  | JBool true => PrimFloat.one
  | JBool false => PrimFloat.zero
  | JNum f => f
  | JStr s => StringToNumber s
  end.

(** The truth value of [v] in a condition. *)
Definition ToBoolean (v : jsval) : bool :=
  match v with
  | JUndefined | JNull => false
  | JBool b => b
  | JNum f => negb (PrimFloat.is_zero f || PrimFloat.is_nan f)
  | JStr s => negb (is_empty s)
  end.

(** [String(v)], also the text of [v] in a template literal. *)
Definition ToString (v : jsval) : string :=
  match v with
  | JUndefined => "undefined"
  | JNull => "null"
  | JBool true => "true"
  | JBool false => "false"
  | JNum f => NumberToString f
  | JStr s => s
  end.

(** *** Arrays and sets *)

(** A stable sort by the order [le]. *)
Fixpoint insert_by {A : Type} (le : A -> A -> bool) (x : A) (l : list A) : list A :=
  match l with
  | [] => [x]
  | y :: r => if le x y then x :: l else y :: insert_by le x r
  end.

Fixpoint sort_by {A : Type} (le : A -> A -> bool) (l : list A) : list A :=
  match l with
  | [] => []
  | x :: r => insert_by le x (sort_by le r)
  end.

Definition is_undefined (v : jsval) : bool :=
  match v with JUndefined => true | _ => false end.

(** The UTF-16 code units of a string.  A string of this development holds
    the UTF-8 text of the JavaScript string: a sequence of one, two or
    three bytes is one code unit, a sequence of four bytes a surrogate
    pair; a byte that begins no sequence stands for itself. *)
Fixpoint utf16 (s : string) : list Z :=
  match s with
  | EmptyString => []
  | String c1 r1 =>
      let b1 := code c1 in
      if (b1 <? 192) || (247 <? b1) then b1 :: utf16 r1
      else match r1 with
           | EmptyString => [b1]
           | String c2 r2 =>
               let b2 := code c2 mod 64 in
               if b1 <? 224 then ((b1 mod 32) * 64 + b2) :: utf16 r2
               else match r2 with
                    | EmptyString => [b1; code c2]
                    | String c3 r3 =>
                        let b3 := code c3 mod 64 in
                        if b1 <? 240
                        then ((b1 mod 16) * 4096 + b2 * 64 + b3) :: utf16 r3
                        else match r3 with
                             | EmptyString => [b1; code c2; code c3]
                             | String c4 r4 =>
                                 let cp := (b1 mod 8) * 262144 + b2 * 4096
                                           + b3 * 64 + code c4 mod 64 in
                                 (55296 + (cp - 65536) / 1024)
                                 :: (56320 + (cp - 65536) mod 1024) :: utf16 r4
                             end
                    end
           end
  end.

(** [a <= b] on sequences of code units: at the first place where they
    differ [a] has the smaller unit, or [a] ends first. *)
Fixpoint units_leb (a b : list Z) : bool :=
  match a, b with
  | [], _ => true
  | _ :: _, [] => false
  | x :: a', y :: b' =>
      if x <? y then true else if y <? x then false else units_leb a' b'
  end.

(** [!(b < a)] on strings: the order of the code units. *)
Definition string_leb (a b : string) : bool := units_leb (utf16 a) (utf16 b).

(** [arr.sort()] with the default order: by the elements' strings, UTF-16
    code unit by code unit, the undefined ones last; the sort is stable. *)
Definition sort_default (arr : list jsval) : list jsval :=
  (sort_by (fun a b => string_leb (ToString a) (ToString b))
           (filter (fun v => negb (is_undefined v)) arr)
   ++ filter is_undefined arr)%list.

(** The order of that sort: [a] may stand before [b]. *)
Definition default_le (a b : jsval) : bool :=
  is_undefined b || (negb (is_undefined a) && string_leb (ToString a) (ToString b)).

(** [Array.from(new Set(arr))]: the first occurrence of every value, by
    SameValueZero; a set holds [-0] as [+0]. *)
Definition set_add (acc : list jsval) (v : jsval) : list jsval :=
  if includes acc v then acc
  else (acc ++ [match v with
                | JNum f => if PrimFloat.is_zero f then JNum PrimFloat.zero else v
                | _ => v
                end])%list.

Definition set_from (arr : list jsval) : list jsval := fold_left set_add arr [].

(** [arr.slice(0, n)]. *)
Definition slice0 {A : Type} (n : Z) (arr : list A) : list A := firstn (Z.to_nat n) arr.

(** The number an optional value stands for in arithmetic ([undefined] is
    NaN). *)
Definition num_of (o : option float) : float :=
  match o with Some f => f | None => PrimFloat.nan end.

(** [Math.max(a, b)] and [Math.min(a, b)]. *)
Definition Math_max (a b : float) : float :=
  if PrimFloat.is_nan a || PrimFloat.is_nan b then PrimFloat.nan
  else if PrimFloat.ltb a b then b
  else if PrimFloat.ltb b a then a
  else if PrimFloat.get_sign a then b else a.

Definition Math_min (a b : float) : float :=
  if PrimFloat.is_nan a || PrimFloat.is_nan b then PrimFloat.nan
  else if PrimFloat.ltb a b then a
  else if PrimFloat.ltb b a then b
  else if PrimFloat.get_sign a then a else b.

End JS.

Import JS.

(* ================================================================= *)
(** ** The d3 operations the component calls

    As d3 version 7 defines them: [extent], [min], [max], [ascending] and
    [quantile] of d3-array, the linear scale of d3-scale, and the data
    join of d3-selection.  [d3.bin], [scale.nice] and [d3.timeParse] are
    parameters of the component below. *)

Module D3.

Local Open Scope float_scope.

(** [d3.extent(values)]: the least and the greatest value, NaN skipped;
    [None] where the source has [undefined, undefined]. *)
Definition extent (values : list float) : option (float * float) :=
  fold_left (fun acc v =>
    match acc with
    | None => if PrimFloat.leb v v then Some (v, v) else None
    | Some (lo, hi) =>
        Some ((if PrimFloat.ltb v lo then v else lo),
              (if PrimFloat.ltb hi v then v else hi))
    end) values None.

(** [d3.min] and [d3.max] over numbers, NaN skipped. *)
Definition min (values : list float) : option float := option_map fst (extent values).
Definition max (values : list float) : option float := option_map snd (extent values).

(** [arr.sort(d3.ascending)] on numbers none of which is NaN. *)
Definition sort_ascending (values : list float) : list float :=
  sort_by PrimFloat.leb values.

(** [d3.quantile(values, p)], the R-7 estimate: NaN is dropped; with
    [i = (n-1)p] and [i0 = floor i] the result interpolates between the
    greatest of the [i0+1] least values and the least of the others, that
    is between the entries [i0] and [i0+1] of the values in order. *)
Definition quantile (values : list float) (p : float) : option float :=
  let vs := filter (fun v => PrimFloat.leb v v) values in
  let n := Z.of_nat (List.length vs) in
  if (n =? 0)%Z || PrimFloat.is_nan p then None
  else if PrimFloat.leb p 0 || (n <? 2)%Z then min vs
  else if PrimFloat.leb 1 p then max vs
  else
    let i := Z_to_float (n - 1) * p in
    match floor_Z i with
    | None => None
    | Some i0 =>
        let sorted := sort_ascending vs in
        let value0 := nth (Z.to_nat i0) sorted PrimFloat.nan in
        let value1 := nth (Z.to_nat (i0 + 1)) sorted PrimFloat.nan in
        Some (value0 + (value1 - value0) * (i - Z_to_float i0))
    end.

(** *** Linear scales *)

(** [d3.scaleLinear().domain([d0, d1]).range([r0, r1])]. *)
Record scale : Type := scaleLinear { domain : float * float; range : float * float }.

Definition normalize (a b x : float) : float :=
  let b' := b - a in
  if PrimFloat.is_zero b' || PrimFloat.is_nan b'
  then (if PrimFloat.is_nan b' then PrimFloat.nan else 0.5)
  else (x - a) / b'.

Definition interpolateNumber (a b t : float) : float := a * (1 - t) + b * t.

Definition bimap (d r : float * float) (x : float) : float :=
  let '(d0, d1) := d in
  let '(r0, r1) := r in
  if PrimFloat.ltb d1 d0
  then interpolateNumber r1 r0 (normalize d1 d0 x)
  else interpolateNumber r0 r1 (normalize d0 d1 x).

(** [s(x)]: undefined for NaN. *)
Definition apply (s : scale) (x : float) : option float :=
  if PrimFloat.is_nan x then None else Some (bimap (domain s) (range s) x).

(** [s.invert(y)]. *)
Definition invert (s : scale) (y : float) : float :=
  bimap (range s) (domain s) y.

(** *** Data joins *)

Section Join.

Context {N D K : Type}.
Variable keq : K -> K -> bool.

(** The [Map] from key to node that [bindKey] fills. *)
Definition keymap : Type := list (K * N).

Fixpoint kget (m : keymap) (k : K) : option N :=
  match m with
  | [] => None
  | (k', v) :: r => if keq k' k then Some v else kget r k
  end.

Fixpoint kdelete (m : keymap) (k : K) : keymap :=
  match m with
  | [] => []
  | (k', v) :: r => if keq k' k then r else (k', v) :: kdelete r k
  end.

Variable datum_of : N -> D.
Variable key : D -> nat -> K.

(** First loop of [bindKey]: every node of the group, [i] its index, enters
    the map under its key; a node whose key is taken is left out (it goes
    to the exit selection). *)
Fixpoint index_nodes (group : list N) (i : nat) (m : keymap) : keymap :=
  match group with
  | [] => m
  | node :: r =>
      let k := key (datum_of node) i in
      match kget m k with
      | Some _ => index_nodes r (S i) m
      | None => index_nodes r (S i) (m ++ [(k, node)])%list
      end
  end.

(** Second loop: every datum takes the node under its key, and removes it
    from the map, or enters. *)
Fixpoint bind_data (data : list D) (i : nat) (m : keymap)
  : list (D * option N) * keymap :=
  match data with
  | [] => ([], m)
  | d :: r =>
      let k := key d i in
      match kget m k with
      | Some node =>
          let '(bound, m') := bind_data r (S i) (kdelete m k) in
          ((d, Some node) :: bound, m')
      | None =>
          let '(bound, m') := bind_data r (S i) m in
          ((d, None) :: bound, m')
      end
  end.

(** [selection.data(data, key)] on a group without holes: for every datum,
    in order, the node it updates or [None] when it enters.  The nodes of
    the group that no datum took are the exit selection. *)
Definition bindKey (group : list N) (data : list D) : list (D * option N) :=
  fst (bind_data data 0 (index_nodes group 0 [])).

(** [selection.data(data)] without a key: by index. *)
Fixpoint bindIndex (group : list N) (data : list D) : list (D * option N) :=
  match data, group with
  | [], _ => []
  | d :: r, [] => (d, None) :: bindIndex [] r
  | d :: r, node :: g => (d, Some node) :: bindIndex g r
  end.

(** [.join(enter, update, exit => exit.remove())]: the exit nodes leave
    the document; [join] returns the merged selection in data order, which
    is then the order of the parent's children.  The state [st] threads the
    allocation of new nodes. *)
Section Merge.
Context {St : Type}.
Variable onenter : St -> D -> St * N.
Variable onupdate : N -> D -> N.

Fixpoint join (st : St) (bound : list (D * option N)) : St * list N :=
  match bound with
  | [] => (st, [])
  | (d, Some node) :: r =>
      let '(st', nodes) := join st r in (st', onupdate node d :: nodes)
  | (d, None) :: r =>
      let '(st1, node) := onenter st d in
      let '(st2, nodes) := join st1 r in (st2, node :: nodes)
  end.
End Merge.

End Join.

End D3.

(* ================================================================= *)
(** ** The component *)

Module Viz.

Local Open Scope float_scope.

(** A JavaScript [Date] is its time value, milliseconds since the epoch. *)
Definition Date : Type := Z.

(** A raw row: an object read by column name, [undefined] where the row
    has no such property. *)
Definition row : Type := string -> jsval.

(** [CONFIG.columns]: the name of the column behind every field. *)
Record columns : Type := mkColumns {
  col_x : string;
  col_y : string;
  col_made : string;
  col_player : string;
  col_team : string;
  col_distance : string;
  col_date : string;
  col_quarter : string;
  col_minsLeft : string;
  col_secsLeft : string
}.

(** A normalised record: the fields that [rawData.map] adds to a copy of
    the raw row (the copied columns are not read again). *)
Record shot : Type := mkShot {
  __x : float;
  __y : float;
  __made : Z;
  __player : jsval;
  __team : jsval;
  __dist : float;
  __date : option Date;
  __q : option float;
  __mins : option float;
  __secs : option float
}.

(** [v === "TRUE" || v === true || +v === 1 ? 1 : 0]. *)
Definition made_of (v : jsval) : Z :=
  if strict_eq v (JStr "TRUE") || strict_eq v (JBool true) || num_eq (ToNumber v) 1
  then 1%Z else 0%Z.

(** [v ? +v : null]. *)
Definition number_or_null (v : jsval) : option float :=
  if ToBoolean v then Some (ToNumber v) else None.

Section Normalise.

(** [d3.timeParse("%m-%d-%Y")]: the date a value parses to, or null. *)
Variable parseMDY : jsval -> option Date.

(** The body of [rawData.map(d => ...)]. *)
Definition normalise (c : columns) (d : row) : shot :=
  {| __x := ToNumber (d (col_x c));
     __y := ToNumber (d (col_y c));
     __made := made_of (d (col_made c));
     __player := d (col_player c);
     __team := d (col_team c);
     __dist := ToNumber (d (col_distance c));
     __date := parseMDY (d (col_date c));
     __q := number_or_null (d (col_quarter c));
     __mins := number_or_null (d (col_minsLeft c));
     __secs := number_or_null (d (col_secsLeft c)) |}.

Definition data (c : columns) (rawData : list row) : list shot :=
  map (normalise c) rawData.

End Normalise.

(** *** Filter state *)

(** The variables the controls and the brush assign. *)
Record state : Type := mkState {
  selPlayers : list jsval;
  selTeams : list jsval;
  madeFilter : string;
  distFilter : string;
  brushedExtent : option (float * float)
}.

Definition allPlayers (data : list shot) : list jsval :=
  sort_default (set_from (map __player data)).

Definition allTeams (data : list shot) : list jsval :=
  sort_default (set_from (map __team data)).

(** The state at mount: [selPlayers = allPlayers.slice(0, Math.min(5,
    allPlayers.length))], [selTeams = allTeams.slice()], both selects on
    "All", no brush. *)
Definition init (data : list shot) : state :=
  {| selPlayers :=
       slice0 (Z.min 5 (Z.of_nat (List.length (allPlayers data)))) (allPlayers data);
     selTeams := allTeams data;
     madeFilter := "All";
     distFilter := "All";
     brushedExtent := None |}.

(** The first lines of [redraw], statement by statement: each takes the
    value of [filtered] so far and gives the next. *)
Definition by_selection (s : state) (data : list shot) : list shot :=
  filter (fun d => includes (selPlayers s) (__player d)
                   && includes (selTeams s) (__team d)) data.

Definition by_result (s : state) (l : list shot) : list shot :=
  let l1 := if String.eqb (madeFilter s) "Made"
            then filter (fun d => (__made d =? 1)%Z) l else l in
  if String.eqb (madeFilter s) "Missed"
  then filter (fun d => (__made d =? 0)%Z) l1 else l1.

Definition by_band (s : state) (l : list shot) : list shot :=
  if negb (String.eqb (distFilter s) "All") then
    let l1 := if String.eqb (distFilter s) "0–10"
              then filter (fun d => PrimFloat.leb (__dist d) 10) l else l in
    let l2 := if String.eqb (distFilter s) "10–23"
              then filter (fun d => PrimFloat.ltb 10 (__dist d)
                                    && PrimFloat.leb (__dist d) 23) l1 else l1 in
    if String.eqb (distFilter s) "23+"
    then filter (fun d => PrimFloat.ltb 23 (__dist d)) l2 else l2
  else l.

Definition by_brush (s : state) (l : list shot) : list shot :=
  match brushedExtent s with
  | Some (d0, d1) =>
      filter (fun d => PrimFloat.leb d0 (__dist d) && PrimFloat.leb (__dist d) d1) l
  | None => l
  end.

(** The visible subset: [filtered] when the dots are joined. *)
Definition filtered (data : list shot) (s : state) : list shot :=
  by_brush s (by_band s (by_result s (by_selection s data))).

(** *** Scales *)

Definition W : float := 1100.
Definition H : float := 560.
Definition innerW : float := W - 10 - 10.
Definition innerH : float := H - 10 - 10.
Definition HW : float := W - 40 - 20.
Definition HH : float := 140 - 10 - 26.

Definition xDom (data : list shot) : float * float :=
  match D3.extent (map __x data) with
  | None => (-250, 250)
  | Some (lo, hi) => (lo - 10, hi + 10)
  end.

Definition yDom (data : list shot) : float * float :=
  match D3.extent (map __y data) with
  | None => (-50, 470)
  | Some (lo, hi) => (Math_min (-50) (lo - 10), hi + 10)
  end.

Definition x (data : list shot) : D3.scale := D3.scaleLinear (xDom data) (0, innerW).
Definition y (data : list shot) : D3.scale := D3.scaleLinear (yDom data) (innerH, 0).

(** [d3.quantile(data.map(d => d.__dist).filter(Number.isFinite)
    .sort(d3.ascending), 0.99) || 35]. *)
Definition hx_max (data : list shot) : float :=
  match D3.quantile (D3.sort_ascending (filter isFinite (map __dist data))) 0.99 with
  | Some q => if ToBoolean (JNum q) then q else 35
  | None => 35
  end.

(** The histogram's scale, [const hx]. *)
Definition hx (data : list shot) : D3.scale := D3.scaleLinear (0, hx_max data) (0, HW).

(** *** The listener of the brush *)

(** What the listener of "brush end" assigns before it calls [redraw]:
    null for no selection, else the selection through [hx.invert]. *)
Definition brush_handler (hx : D3.scale) (selection : option (float * float)) (s : state)
  : state :=
  {| selPlayers := selPlayers s;
     selTeams := selTeams s;
     madeFilter := madeFilter s;
     distFilter := distFilter s;
     brushedExtent :=
       match selection with
       | None => None
       | Some (x0, x1) => Some (D3.invert hx x0, D3.invert hx x1)
       end |}.

(** *** The tooltip *)

Definition row_player (d : shot) : string :=
  "<b>" ++ ToString (__player d) ++ "</b> (" ++ ToString (__team d) ++ ")".

Definition row_result (d : shot) : string :=
  "Result: " ++ (if (__made d =? 0)%Z then "Missed ✗" else "Made ✓").

Definition row_distance (d : shot) : string :=
  "Distance: " ++ (if isFinite (__dist d) then toFixed (__dist d) 1 else "NA") ++ " ft".

(** [d.__mins ?? ""] as text. *)
Definition text_or_empty (o : option float) : string :=
  match o with Some f => NumberToString f | None => "" end.

Definition row_clock (d : shot) : string :=
  match __q d with
  | Some q => "Q" ++ NumberToString q ++ "  " ++ text_or_empty (__mins d)
              ++ ":" ++ padStart0 2 (text_or_empty (__secs d))
  | None => ""
  end.

Section Tooltip.

(** [Date.prototype.toISOString]. *)
Variable toISOString : Date -> string.

Definition row_date (d : shot) : string :=
  match __date d with
  | Some t => "Date: " ++ take_str 10 (toISOString t)
  | None => ""
  end.

(** The [rows] of the "mousemove" listener, the empty ones filtered out. *)
Definition tooltip_rows (d : shot) : list string :=
  filter (fun r => negb (is_empty r))
    [row_player d; row_result d; row_distance d; row_date d; row_clock d].

End Tooltip.

(** *** The document *)

(** A [circle] of the dots layer: the node, the attributes that depend on
    its datum, and the datum bound to it ([__data__]).  The constant
    attributes ([r], [fill-opacity], [stroke-width]) are left out. *)
Record circle : Type := mkCircle {
  circle_id : nat;
  cx : option float;
  cy : option float;
  fill : string;
  stroke : string;
  circle_data : shot
}.

(** A bin of [d3.bin]: the values it holds between [x0] and [x1]. *)
Record bin : Type := mkBin {
  x0 : float;
  x1 : float;
  values : list float
}.

(** A [rect.bin] of the histogram. *)
Record rect : Type := mkRect {
  rect_id : nat;
  rect_x : option float;
  rect_y : option float;
  rect_width : float;
  rect_height : float;
  rect_data : bin
}.

(** The datum of a bar and the attributes that place it. *)
Definition bar_shape (b : rect) : option float * option float * float * float * bin :=
  (rect_x b, rect_y b, rect_width b, rect_height b, rect_data b).

(** What [redraw] and the listeners leave in the document: the counter
    that names new nodes, the circles of [dots], the bars of [hg], the
    selection the brush shows, and the transform the zoom listener sets on
    the court and on the dots. *)
Record view : Type := mkView {
  next_id : nat;
  dots : list circle;
  bars : list rect;
  brush_selection : option (float * float);
  zoom : option (float * float * float)
}.

Definition empty_view : view := mkView 0 [] [] None None.

(** [enter.append("circle").attr(...)]. *)
Definition append_circle (data : list shot) (next : nat) (d : shot) : nat * circle :=
  (S next,
   {| circle_id := next;
      cx := D3.apply (x data) (__x d);
      cy := D3.apply (y data) (__y d);
      fill := if (__made d =? 0)%Z then "#e74c3c" else "#4a90e2";
      stroke := if (__made d =? 0)%Z then "#ec7063" else "#6ba3e8";
      circle_data := d |}).

(** [update => update]: the node keeps its attributes; the join has bound
    the datum to it. *)
Definition rebind_circle (c : circle) (d : shot) : circle :=
  {| circle_id := circle_id c;
     cx := cx c;
     cy := cy c;
     fill := fill c;
     stroke := stroke c;
     circle_data := d |}.

(** [dots.selectAll("circle").data(filtered, (d,i) => i).join(...)]. *)
Definition redraw_dots (data : list shot) (s : state) (next : nat) (group : list circle)
  : nat * list circle :=
  D3.join (append_circle data) rebind_circle next
    (D3.bindKey Nat.eqb circle_data (fun _ i => i) group (filtered data s)).

Section Histogram.

(** [d3.bin().domain(dom).thresholds(n)(values)]. *)
Variable d3_bin : float * float -> Z -> list float -> list bin.
(** The domain [scale.nice()] extends a domain to. *)
Variable d3_nice : float * float -> float * float.

Definition bins (data : list shot) : list bin :=
  d3_bin (D3.domain (hx data)) 25%Z (filter isFinite (map __dist data)).

(** [b.length]. *)
Definition bin_length (b : bin) : float := Z_to_float (Z.of_nat (List.length (values b))).

Definition hy (data : list shot) : D3.scale :=
  D3.scaleLinear (d3_nice (0, num_of (D3.max (map bin_length (bins data))))) (HH, 0).

(** The attributes both the enter and the update callback set. *)
Definition bar (data : list shot) (id : nat) (b : bin) : rect :=
  {| rect_id := id;
     rect_x := D3.apply (hx data) (x0 b);
     rect_y := D3.apply (hy data) (bin_length b);
     rect_width :=
       Math_max 1 (num_of (D3.apply (hx data) (x1 b))
                   - num_of (D3.apply (hx data) (x0 b)) - 1);
     rect_height := HH - num_of (D3.apply (hy data) (bin_length b));
     rect_data := b |}.

(** [hg.selectAll("rect.bin").data(bins).join(...)]. *)
Definition redraw_bars (data : list shot) (next : nat) (group : list rect)
  : nat * list rect :=
  D3.join (fun n b => (S n, bar data n b)) (fun node b => bar data (rect_id node) b)
    next (D3.bindIndex group (bins data)).

(** One run of the body of [redraw()]: the dots, the bars, and the
    selection that [brush.move] sets for the brushed extent.  The axis, a
    function of [hx] alone, is left out.  The events that [brush.move]
    then dispatches, which call the listener and [redraw()] again, are in
    [redraw_nested] below. *)
Definition redraw (data : list shot) (s : state) (v : view) : view :=
  let '(n1, cs) := redraw_dots data s (next_id v) (dots v) in
  let '(n2, bs) := redraw_bars data n1 (bars v) in
  {| next_id := n2;
     dots := cs;
     bars := bs;
     brush_selection :=
       match brushedExtent s with
       | Some (d0, d1) =>
           Some (num_of (D3.apply (hx data) d0), num_of (D3.apply (hx data) d1))
       | None => brush_selection v
       end;
     zoom := zoom v |}.

(** *** The listeners *)

Inductive event : Type :=
| PlayersChanged (chosen : list string)
| TeamsChanged (chosen : list string)
| ResultChanged (value : string)
| DistModeChanged (value : string)
| Brushed (selection : option (float * float))
| Zoomed (t : float * float * float).

(** The assignment a control's [onChange] makes. *)
Definition assign (data : list shot) (e : event) (s : state) : state :=
  match e with
  | PlayersChanged chosen =>
      mkState (map JStr chosen) (selTeams s) (madeFilter s) (distFilter s) (brushedExtent s)
  | TeamsChanged chosen =>
      mkState (selPlayers s) (map JStr chosen) (madeFilter s) (distFilter s) (brushedExtent s)
  | ResultChanged value =>
      mkState (selPlayers s) (selTeams s) value (distFilter s) (brushedExtent s)
  | DistModeChanged value =>
      mkState (selPlayers s) (selTeams s) (madeFilter s) value (brushedExtent s)
  | Brushed selection => brush_handler (hx data) selection s
  | Zoomed _ => s
  end.

(** The assignment of a listener and one run of the body of [redraw()];
    the zoom listener sets the transform.  [listen] below is the listener
    with the nested calls. *)
Definition handle (data : list shot) (e : event) (sv : state * view) : state * view :=
  let '(s, v) := sv in
  match e with
  | Zoomed t => (s, mkView (next_id v) (dots v) (bars v) (brush_selection v) (Some t))
  | Brushed selection =>
      let s' := assign data e s in
      (s', redraw data s' (mkView (next_id v) (dots v) (bars v) selection (zoom v)))
  | _ => let s' := assign data e s in (s', redraw data s' v)
  end.

(** The component once mounted: the initial state and the initial draw. *)
Definition mount (data : list shot) : state * view :=
  (init data, redraw data (init data) empty_view).

(** The component after a sequence of events. *)
Definition run (data : list shot) (es : list event) : state * view :=
  fold_left (fun sv e => handle data e sv) es (mount data).

(** *** The calls as the program runs them *)

(** [redraw] and [handle] above are one run of the body of [redraw()] and
    of a listener.  The program does more when a range is brushed:
    [brush.move], the last statement of [redraw()], dispatches "brush"
    while [redraw()] is still running, to the listener of lines 271-280,
    which assigns the range and calls [redraw()] again. *)

(** How a call ends: it returns, or the call stack runs out (a RangeError
    that nothing catches). *)
Inductive ending : Type := Returns | StackOverflow.

(** The emitter of the brush ([state.emitter] of d3-brush): the number of
    gestures and of calls of [brush.move] that have begun on it and not
    ended, and whether a gesture made it ([clean]). *)
Record emitter : Type := mkEmitter {
  emit_active : nat;
  emit_clean : bool
}.

(** The page: the variables of the component, the document, and the
    emitter of the brush when it has one. *)
Record page : Type := mkPage {
  vars : state;
  doc : view;
  brush_emitter : option emitter
}.

(** [emitter(that, args).beforestart()] in [brush.move]: the emitter that
    is there, counted up, or a new one. *)
Definition move_emitter (e : option emitter) : option emitter :=
  match e with
  | Some e => Some (mkEmitter (S (emit_active e)) (emit_clean e))
  | None => Some (mkEmitter 1 false)
  end.

(** [redraw()] as a call, with room for [depth] more nested calls on the
    stack.  After the body, when a range is brushed, [brush.move] counts
    the emitter up, sets the selection and dispatches "brush" ([emit.start]
    does on an emitter that is active already, [emit.brush] on a new one)
    with that selection; the listener assigns the range the selection
    inverts to and calls [redraw()], before [brush.move] reaches
    [emit.end].  Nothing but the stack ends the recursion: the overflow is
    taken where the listener would be called. *)
Fixpoint redraw_nested (data : list shot) (depth : nat) (p : page) : page * ending :=
  let v := redraw data (vars p) (doc p) in
  match brushedExtent (vars p) with
  | None => (mkPage (vars p) v (brush_emitter p), Returns)
  | Some _ =>
      match depth with
      | O => (mkPage (vars p) v (move_emitter (brush_emitter p)), StackOverflow)
      | S k =>
          redraw_nested data k
            (mkPage (brush_handler (hx data) (brush_selection v) (vars p)) v
               (move_emitter (brush_emitter p)))
      end
  end.

(** The brush shows [sel]. *)
Definition set_selection (sel : option (float * float)) (v : view) : view :=
  mkView (next_id v) (dots v) (bars v) sel (zoom v).

(** A listener as the program runs it: the assignment, then [redraw()]
    as a call. *)
Definition listen (data : list shot) (depth : nat) (e : event) (p : page)
  : page * ending :=
  match e with
  | Zoomed t =>
      (mkPage (vars p)
         (mkView (next_id (doc p)) (dots (doc p)) (bars (doc p))
            (brush_selection (doc p)) (Some t))
         (brush_emitter p), Returns)
  | Brushed selection =>
      redraw_nested data depth
        (mkPage (assign data e (vars p)) (set_selection selection (doc p))
           (brush_emitter p))
  | _ => redraw_nested data depth (mkPage (assign data e (vars p)) (doc p) (brush_emitter p))
  end.

(** What the pointer does on the brush: it is pressed, the brush then
    showing [sel0] (of no width at the pointer when the press is outside
    the selection); it moves, the selection changing to [sel]; it is
    released. *)
Inductive pointer : Type :=
| PointerDown (sel0 : float * float)
| PointerMove (sel : float * float)
| PointerUp.

(** [empty(selection)] of d3-brush, for [brushX]. *)
Definition empty_selection (sel : float * float) : bool := num_eq (fst sel) (snd sel).

(** The handlers of d3-brush ([started], [moved], [ended]) with the
    component's listener on "brush" and "end"; "start" has no listener.
    Pressing takes the emitter that is there unless a gesture made it, and
    else a new one; on an emitter that is active already [emit.start]
    dispatches "brush".  Releasing clears a selection of no width and
    dispatches "end" only when the count of the emitter returns to zero. *)
Definition gesture (data : list shot) (depth : nat) (g : pointer) (p : page)
  : page * ending :=
  match g with
  | PointerDown sel0 =>
      match brush_emitter p with
      | Some (mkEmitter n false) =>
          listen data depth (Brushed (Some sel0))
            (mkPage (vars p) (doc p) (Some (mkEmitter (S n) false)))
      | _ =>
          (mkPage (vars p) (set_selection (Some sel0) (doc p)) (Some (mkEmitter 1 true)),
           Returns)
      end
  | PointerMove sel => listen data depth (Brushed (Some sel)) p
  | PointerUp =>
      let sel := match brush_selection (doc p) with
                 | Some s => if empty_selection s then None else Some s
                 | None => None
                 end in
      match brush_emitter p with
      | Some (mkEmitter (S (S n)) c) =>
          (mkPage (vars p) (set_selection sel (doc p)) (Some (mkEmitter (S n) c)), Returns)
      | Some (mkEmitter 1 _) =>
          listen data depth (Brushed sel) (mkPage (vars p) (doc p) None)
      | _ => (mkPage (vars p) (set_selection sel (doc p)) (brush_emitter p), Returns)
      end
  end.

End Histogram.

End Viz.

Import Viz.

(* ================================================================= *)
(** ** Vocabulary of the statements *)

Section Vocabulary.

Local Open Scope float_scope.

(** The criteria one by one, each as the predicate it puts on a record;
    a criterion that is not active accepts every record. *)
Definition actor_ok (s : state) (d : shot) : bool :=
  includes (selPlayers s) (__player d).

Definition group_ok (s : state) (d : shot) : bool :=
  includes (selTeams s) (__team d).

Definition outcome_ok (s : state) (d : shot) : bool :=
  if String.eqb (madeFilter s) "Made" then (__made d =? 1)%Z
  else if String.eqb (madeFilter s) "Missed" then (__made d =? 0)%Z
  else true.

Definition band_ok (s : state) (d : shot) : bool :=
  if String.eqb (distFilter s) "0–10" then PrimFloat.leb (__dist d) 10
  else if String.eqb (distFilter s) "10–23"
       then PrimFloat.ltb 10 (__dist d) && PrimFloat.leb (__dist d) 23
  else if String.eqb (distFilter s) "23+" then PrimFloat.ltb 23 (__dist d)
  else true.

Definition range_ok (s : state) (d : shot) : bool :=
  match brushedExtent s with
  | Some (d0, d1) => PrimFloat.leb d0 (__dist d) && PrimFloat.leb (__dist d) d1
  | None => true
  end.

Definition all_ok (s : state) (d : shot) : bool :=
  actor_ok s d && group_ok s d && outcome_ok s d && band_ok s d && range_ok s d.

(** The nodes of a group, each under its index, counted from [i]. *)
Definition enum {N : Type} (i : nat) (group : list N) : list (nat * N) :=
  combine (seq i (List.length group)) group.

(** Every character of [s] is a decimal digit. *)
Fixpoint all_digits (s : string) : bool :=
  match s with
  | EmptyString => true
  | String c r => is_digit c && all_digits r
  end.

(** Two records, one of player A at [x = 0], made, and one of player B at
    [x = 100], missed. *)
Definition shot_A : shot := mkShot 0 0 1 (JStr "A") (JStr "T") 12 None None None None.
Definition shot_B : shot := mkShot 100 0 0 (JStr "B") (JStr "T") 30 None None None None.

End Vocabulary.

(* ================================================================= *)
(** ** The controls and the tooltip element *)

Module Controls.

(** An [option] of a [select]: its value, its text and whether it is
    selected. *)
Record option_el : Type := mkOption {
  opt_value : string;
  opt_text : string;
  opt_selected : bool
}.

(** The [select] that [createSelect] wraps in a label: the label's text,
    [multiple], [size] when it is set, and the options in order. *)
Record select_el : Type := mkSelect {
  sel_label : string;
  sel_multiple : bool;
  sel_size : option Z;
  sel_options : list option_el
}.

(** [createSelect(label, options, value, onChange, {multiple, size})]: an
    option for every element of [options], its value and text the
    element's string ([textContent] takes null and undefined as the empty
    string); in a single select the option that is [=== value] is
    selected; a multiple select has [size = Math.min(size,
    options.length)]. *)
Definition createSelect (label : string) (options : list jsval) (value : jsval)
    (multiple : bool) (size : Z) : select_el :=
  {| sel_label := label;
     sel_multiple := multiple;
     sel_size := if multiple then Some (Z.min size (Z.of_nat (List.length options)))
                 else None;
     sel_options :=
       map (fun o => mkOption (ToString o)
                     (match o with JNull | JUndefined => "" | _ => ToString o end)
                     (negb multiple && strict_eq o value))
           options |}.

(** The user sets the selection: the option at index [i] is selected when
    the flag at [i] is set (an option past the flags is not). *)
Fixpoint pick_options (flags : list bool) (opts : list option_el) : list option_el :=
  match opts with
  | [] => []
  | o :: r =>
      mkOption (opt_value o) (opt_text o) (hd false flags) :: pick_options (tl flags) r
  end.

Definition pick (flags : list bool) (sel : select_el) : select_el :=
  mkSelect (sel_label sel) (sel_multiple sel) (sel_size sel)
    (pick_options flags (sel_options sel)).

(** [Array.from(select.selectedOptions).map(o => o.value)]. *)
Definition selected_values (sel : select_el) : list string :=
  map opt_value (filter opt_selected (sel_options sel)).

(** [select.value]: the value of the first selected option, the empty
    string when there is none.  A list box that is not [multiple] keeps one
    option selected: the last one that was set, the first option when none
    was. *)
Definition select_value (sel : select_el) : string :=
  if sel_multiple sel then hd "" (selected_values sel)
  else match rev (selected_values sel) with
       | v :: _ => v
       | [] => hd "" (map opt_value (sel_options sel))
       end.

(** What [select.onchange] passes to [onChange]: the chosen values of a
    multiple select, the value of a single one. *)
Definition onchange_arg (sel : select_el) : list string + string :=
  if sel_multiple sel then inl (selected_values sel) else inr (select_value sel).

(** The four controls of the component. *)
Definition playerSelect (data : list shot) : select_el :=
  createSelect "Players (multi-select)" (allPlayers data) JNull true 8.
Definition teamSelect (data : list shot) : select_el :=
  createSelect "Teams (multi-select)" (allTeams data) JNull true 8.
Definition mmSelect : select_el :=
  createSelect "Result" [JStr "All"; JStr "Made"; JStr "Missed"] (JStr "All") false 6.
Definition distMode : select_el :=
  createSelect "Distance Mode" [JStr "All"; JStr "0–10"; JStr "10–23"; JStr "23+"]
    (JStr "All") false 6.

End Controls.

Module Tip.

(** The tooltip [div]: the style properties the listeners set, and its
    HTML. *)
Record tip_el : Type := mkTip {
  opacity : string;
  innerHTML : string;
  left : string;
  top : string
}.

(** The tooltip as created: transparent and empty. *)
Definition created : tip_el := mkTip "0" "" "" "".

(** [rows.join(sep)]. *)
Fixpoint join_with (sep : string) (rows : list string) : string :=
  match rows with
  | [] => ""
  | [r] => r
  | r :: rest => r ++ sep ++ join_with sep rest
  end.

(** The listener of "mousemove" on a circle whose datum is [d], the
    pointer at [(clientX, clientY)]. *)
Definition mousemove (toISOString : Date -> string) (clientX clientY : float) (d : shot)
    (t : tip_el) : tip_el :=
  {| opacity := "1";
     innerHTML := join_with "<br>" (tooltip_rows toISOString d);
     left := NumberToString (clientX + 12)%float ++ "px";
     top := NumberToString (clientY + 12)%float ++ "px" |}.

(** The listener of "mouseleave". *)
Definition mouseleave (t : tip_el) : tip_el :=
  mkTip "0" (innerHTML t) (left t) (top t).

End Tip.

(* ================================================================= *)
(** ** Further vocabulary *)

Section Vocabulary2.

Local Open Scope float_scope.

(** A state with one criterion replaced. *)
Definition with_players (l : list jsval) (s : state) : state :=
  mkState l (selTeams s) (madeFilter s) (distFilter s) (brushedExtent s).
Definition with_teams (l : list jsval) (s : state) : state :=
  mkState (selPlayers s) l (madeFilter s) (distFilter s) (brushedExtent s).
Definition with_result (r : string) (s : state) : state :=
  mkState (selPlayers s) (selTeams s) r (distFilter s) (brushedExtent s).
Definition with_band (b : string) (s : state) : state :=
  mkState (selPlayers s) (selTeams s) (madeFilter s) b (brushedExtent s).
Definition with_brush (e : option (float * float)) (s : state) : state :=
  mkState (selPlayers s) (selTeams s) (madeFilter s) (distFilter s) e.

(** What a state asks of a record besides the band. *)
Definition others_ok (s : state) (d : shot) : bool :=
  actor_ok s d && group_ok s d && outcome_ok s d && range_ok s d.

(** The distance of the record is a number (it is not NaN). *)
Definition numeric_dist (d : shot) : bool := negb (PrimFloat.is_nan (__dist d)).


Definition is_zoom (e : event) : bool :=
  match e with Zoomed _ => true | _ => false end.

(** The transform of the last zoom event, if there is one. *)
Definition last_zoom (es : list event) : option (float * float * float) :=
  fold_left (fun z e => match e with Zoomed t => Some t | _ => z end) es None.

(** The circles that [enter.append] makes for the records [l], the first
    named [next]. *)
Definition fresh_circles (data : list shot) (next : nat) (l : list shot) : list circle :=
  map (fun nd => snd (append_circle data (fst nd) (snd nd)))
      (combine (seq next (List.length l)) l).

(** The circle has the position and the colours of the record bound to
    it. *)
Definition drawn_right (data : list shot) (c : circle) : Prop :=
  cx c = D3.apply (x data) (__x (circle_data c))
  /\ cy c = D3.apply (y data) (__y (circle_data c))
  /\ fill c = (if (__made (circle_data c) =? 0)%Z then "#e74c3c" else "#4a90e2")
  /\ stroke c = (if (__made (circle_data c) =? 0)%Z then "#ec7063" else "#6ba3e8").

(** The circle has the position and the colours of the record [d]. *)
Definition drawn_for (data : list shot) (c : circle) (d : shot) : Prop :=
  cx c = D3.apply (x data) (__x d)
  /\ cy c = D3.apply (y data) (__y d)
  /\ fill c = (if (__made d =? 0)%Z then "#e74c3c" else "#4a90e2")
  /\ stroke c = (if (__made d =? 0)%Z then "#ec7063" else "#6ba3e8").

(** A view with the zoom transform replaced. *)
Definition with_zoom (t : option (float * float * float)) (v : view) : view :=
  mkView (next_id v) (dots v) (bars v) (brush_selection v) t.

(** The range that [brush.move] and the listener leave of a brushed range:
    the range goes to pixels through [hx] and comes back through
    [hx.invert]. *)
Definition round_trip (data : list shot) (s : state) : state :=
  match brushedExtent s with
  | Some (d0, d1) =>
      brush_handler (hx data)
        (Some (num_of (D3.apply (hx data) d0), num_of (D3.apply (hx data) d1))) s
  | None => s
  end.

(** The state after [depth] nested calls. *)
Fixpoint settle (data : list shot) (depth : nat) (s : state) : state :=
  match depth with
  | O => s
  | S k => settle data k (round_trip data s)
  end.

(** Four records at the distances 12, 17.5, 35 and 35, of which the 99th
    percentile is 35, and three at the distance that pixel 517 inverts to
    in the domain [0, 35], 35 and 35. *)
Definition shot_at (name : string) (dist : float) : shot :=
  mkShot 0 0 1 (JStr name) (JStr "T") dist None None None None.
Definition data_35 : list shot :=
  [shot_at "A" 12; shot_at "B" 17.5; shot_at "C" 35; shot_at "D" 35].

(** A cell that reads as the number zero without holding a numeral: null,
    false, or a string of white space only (the empty string included). *)
Definition blank (v : jsval) : bool :=
  match v with
  | JNull => true
  | JBool b => negb b
  | JStr s => is_empty (skip_ws s)
  | _ => false
  end.

End Vocabulary2.

(* ================================================================= *)
(** ** The visible subset *)

Section VisibleSubset.

Local Open Scope float_scope.

Lemma filter_filter {A : Type} (f g : A -> bool) (l : list A) :
  filter f (filter g l) = filter (fun a => g a && f a) l.
Proof.
  induction l as [|a l IH]; simpl; [reflexivity|].
  destruct (g a); simpl; [destruct (f a)|]; now rewrite IH.
Qed.

Lemma filter_true {A : Type} (l : list A) : filter (fun _ => true) l = l.
Proof. induction l; simpl; congruence. Qed.

Lemma eqb_const (a b c : string) :
  String.eqb b c = false -> String.eqb a b = true -> String.eqb a c = false.
Proof.
  intros Hbc Hab. apply String.eqb_eq in Hab. now subst.
Qed.

Lemma by_result_ok (s : state) (l : list shot) :
  by_result s l = filter (outcome_ok s) l.
Proof.
  unfold by_result, outcome_ok.
  destruct (String.eqb (madeFilter s) "Made") eqn:Emade.
  - now rewrite (eqb_const _ "Made" "Missed" eq_refl Emade).
  - destruct (String.eqb (madeFilter s) "Missed"); [reflexivity | now rewrite filter_true].
Qed.

Lemma by_band_ok (s : state) (l : list shot) :
  by_band s l = filter (band_ok s) l.
Proof.
  unfold by_band, band_ok.
  destruct (String.eqb (distFilter s) "All") eqn:Eall; simpl negb; cbv iota zeta.
  - rewrite (eqb_const _ "All" "0–10" eq_refl Eall),
      (eqb_const _ "All" "10–23" eq_refl Eall), (eqb_const _ "All" "23+" eq_refl Eall).
    now rewrite filter_true.
  - destruct (String.eqb (distFilter s) "0–10") eqn:E1.
    + now rewrite (eqb_const _ "0–10" "10–23" eq_refl E1),
        (eqb_const _ "0–10" "23+" eq_refl E1).
    + destruct (String.eqb (distFilter s) "10–23") eqn:E2.
      * now rewrite (eqb_const _ "10–23" "23+" eq_refl E2).
      * destruct (String.eqb (distFilter s) "23+"); [reflexivity | now rewrite filter_true].
Qed.

Lemma by_brush_ok (s : state) (l : list shot) :
  by_brush s l = filter (range_ok s) l.
Proof.
  unfold by_brush, range_ok.
  destruct (brushedExtent s) as [[d0 d1]|]; [reflexivity | now rewrite filter_true].
Qed.

(** The sequence of conditional filters of [redraw] is one filter by the
    conjunction of the criteria. *)
Lemma filtered_all_ok (data : list shot) (s : state) :
  filtered data s = filter (all_ok s) data.
Proof.
  unfold filtered, by_selection.
  rewrite by_brush_ok, by_band_ok, by_result_ok, !filter_filter.
  apply filter_ext. intros d. unfold all_ok, actor_ok, group_ok.
  now rewrite !andb_assoc.
Qed.

Lemma filter_nothing {A : Type} (p : A -> bool) (l : list A) :
  (forall a, p a = false) -> filter p l = [].
Proof.
  intros Hp. induction l as [|a l IH]; simpl; [reflexivity|]. now rewrite Hp.
Qed.

End VisibleSubset.

(* ================================================================= *)
(** ** Data joins keyed by the index *)

Section JoinFacts.

Context {N D : Type}.
Variable datum_of : N -> D.

Lemma kget_fresh (m : list (nat * N)) (i : nat) :
  (forall k n, In (k, n) m -> k < i)%nat -> D3.kget Nat.eqb m i = None.
Proof.
  induction m as [|[k n] m IH]; intros Hm; simpl; [reflexivity|].
  destruct (Nat.eqb_spec k i) as [->|_].
  - specialize (Hm i n (or_introl eq_refl)). lia.
  - apply IH. intros k' n' Hin. apply (Hm k' n'). now right.
Qed.

Lemma index_nodes_enum (group : list N) : forall (i : nat) (m : list (nat * N)),
  (forall k n, In (k, n) m -> k < i)%nat ->
  D3.index_nodes Nat.eqb datum_of (fun _ j => j) group i m = (m ++ enum i group)%list.
Proof.
  induction group as [|a group IH]; intros i m Hm; simpl.
  - unfold enum; simpl. now rewrite app_nil_r.
  - rewrite (kget_fresh m i Hm), IH.
    + unfold enum; simpl. now rewrite <- app_assoc.
    + intros k n Hin. apply in_app_or in Hin. destruct Hin as [Hin|[Heq|[]]].
      * specialize (Hm k n Hin). lia.
      * inversion Heq; subst. lia.
Qed.

Lemma bind_data_enum (data : list D) : forall (i : nat) (group : list N),
  fst (D3.bind_data Nat.eqb (fun _ j => j) data i (enum i group))
  = D3.bindIndex group data.
Proof.
  induction data as [|d data IH]; intros i group; simpl; [reflexivity|].
  destruct group as [|a group].
  - specialize (IH (S i) []). unfold enum in *; simpl in *.
    destruct (D3.bind_data Nat.eqb (fun _ j => j) data (S i) []) as [bound m']; simpl in *.
    now rewrite IH.
  - specialize (IH (S i) group). unfold enum in *; simpl in *.
    rewrite Nat.eqb_refl.
    destruct (D3.bind_data Nat.eqb (fun _ j => j) data (S i)
                (combine (seq (S i) (List.length group)) group)) as [bound m']; simpl in *.
    now rewrite IH.
Qed.

(** A join whose key is the index binds by index: the datum at [i] takes
    the node at [i]. *)
Lemma bindKey_index (group : list N) (data : list D) :
  D3.bindKey Nat.eqb datum_of (fun _ j => j) group data = D3.bindIndex group data.
Proof.
  unfold D3.bindKey. rewrite index_nodes_enum by (intros k n []).
  apply bind_data_enum.
Qed.

Lemma bindIndex_data (group : list N) : forall data : list D,
  map fst (D3.bindIndex group data) = data.
Proof.
  induction group as [|a group IH]; intros data.
  - induction data as [|d data IHd]; simpl; [reflexivity | now rewrite IHd].
  - destruct data as [|d data]; simpl; [reflexivity | now rewrite IH].
Qed.

(** Binding a group to as many data as it has nodes updates every node. *)
Lemma bindIndex_same_length (group : list N) : forall data : list D,
  List.length group = List.length data ->
  D3.bindIndex group data = combine data (map Some group).
Proof.
  induction group as [|a group IH]; intros [|d data] Hlen; simpl in *;
    try reflexivity; try discriminate.
  now rewrite IH by congruence.
Qed.

Section JoinResult.

Context {St : Type}.
Variable onenter : St -> D -> St * N.
Variable onupdate : N -> D -> N.
Hypothesis enter_datum : forall st d, datum_of (snd (onenter st d)) = d.
Hypothesis update_datum : forall n d, datum_of (onupdate n d) = d.

(** After a join every node carries its datum, in data order. *)
Lemma join_data (bound : list (D * option N)) : forall st : St,
  map datum_of (snd (D3.join onenter onupdate st bound)) = map fst bound.
Proof.
  induction bound as [|[d [n|]] bound IH]; intros st; simpl; [reflexivity| |].
  - specialize (IH st). destruct (D3.join onenter onupdate st bound) as [st' nodes].
    simpl in *. now rewrite update_datum, IH.
  - specialize (enter_datum st d). destruct (onenter st d) as [st1 node].
    specialize (IH st1). destruct (D3.join onenter onupdate st1 bound) as [st2 nodes].
    simpl in *. now rewrite enter_datum, IH.
Qed.

Lemma join_length (bound : list (D * option N)) : forall st : St,
  List.length (snd (D3.join onenter onupdate st bound)) = List.length bound.
Proof.
  intros st. rewrite <- (length_map datum_of), join_data. apply length_map.
Qed.

(** A join in which every datum updates a node allocates nothing. *)
Lemma join_all_update (data : list D) : forall (group : list N) (st : St),
  List.length group = List.length data ->
  D3.join onenter onupdate st (combine data (map Some group))
  = (st, map (fun nd => onupdate (fst nd) (snd nd)) (combine group data)).
Proof.
  induction data as [|d data IH]; intros [|a group] st Hlen; simpl in *;
    try reflexivity; try discriminate.
  rewrite IH by congruence. reflexivity.
Qed.

End JoinResult.

End JoinFacts.

Section JoinInvariant.

Context {N D St : Type}.
Variable onenter : St -> D -> St * N.
Variable onupdate : N -> D -> N.
Variable P : N -> Prop.
Hypothesis enter_P : forall st d, P (snd (onenter st d)).
Hypothesis update_P : forall n d, P (onupdate n d).

(** What the callbacks establish holds of every node after the join. *)
Lemma join_Forall (bound : list (D * option N)) : forall st : St,
  Forall P (snd (D3.join onenter onupdate st bound)).
Proof.
  induction bound as [|[d [n|]] bound IH]; intros st; simpl; [constructor| |].
  - specialize (IH st). destruct (D3.join onenter onupdate st bound) as [st' nodes].
    simpl in *. constructor; [apply update_P | exact IH].
  - specialize (enter_P st d). destruct (onenter st d) as [st1 node].
    specialize (IH st1). destruct (D3.join onenter onupdate st1 bound) as [st2 nodes].
    simpl in *. constructor; assumption.
Qed.

End JoinInvariant.

Lemma map_combine_self {N D : Type} (f : N -> D -> N) (h : N -> D) (g : list N) :
  Forall (fun n => f n (h n) = n) g ->
  map (fun nd => f (fst nd) (snd nd)) (combine g (map h g)) = g.
Proof.
  induction 1 as [|n g Hn _ IH]; simpl; [reflexivity | now rewrite Hn, IH].
Qed.

(* ================================================================= *)
(** ** What [redraw] leaves in the document *)

Section Redraw.

Local Open Scope float_scope.

Variable d3_bin : float * float -> Z -> list float -> list bin.
Variable d3_nice : float * float -> float * float.

Lemma rebind_same (c : circle) : rebind_circle c (circle_data c) = c.
Proof. now destruct c. Qed.

(** The data bound to the dots after [redraw] are the visible subset. *)
Lemma redraw_dots_data (data : list shot) (s : state) (next : nat) (group : list circle) :
  map circle_data (snd (redraw_dots data s next group)) = filtered data s.
Proof.
  unfold redraw_dots. rewrite join_data, bindKey_index, bindIndex_data; auto.
Qed.

Lemma redraw_dots_again (data : list shot) (s : state) (next : nat) (group : list circle) :
  redraw_dots data s (fst (redraw_dots data s next group))
    (snd (redraw_dots data s next group))
  = redraw_dots data s next group.
Proof.
  pose proof (redraw_dots_data data s next group) as Hdata.
  destruct (redraw_dots data s next group) as [n1 g1] eqn:E. simpl in *.
  unfold redraw_dots at 1.
  rewrite bindKey_index, bindIndex_same_length
    by (rewrite <- Hdata; symmetry; apply length_map).
  rewrite join_all_update by (rewrite <- Hdata; symmetry; apply length_map).
  f_equal. rewrite <- Hdata. apply map_combine_self.
  apply Forall_forall. intros c _. apply rebind_same.
Qed.

(** The data bound to the bars after [redraw] are the bins. *)
Lemma redraw_bars_data (data : list shot) (next : nat) (group : list rect) :
  map rect_data (snd (redraw_bars d3_bin d3_nice data next group)) = bins d3_bin data.
Proof.
  unfold redraw_bars. rewrite join_data, bindIndex_data; auto.
Qed.

Lemma redraw_bars_again (data : list shot) (next : nat) (group : list rect) :
  redraw_bars d3_bin d3_nice data
    (fst (redraw_bars d3_bin d3_nice data next group))
    (snd (redraw_bars d3_bin d3_nice data next group))
  = redraw_bars d3_bin d3_nice data next group.
Proof.
  pose proof (redraw_bars_data data next group) as Hdata.
  assert (Hbar : Forall (fun b => bar d3_bin d3_nice data (rect_id b) (rect_data b) = b)
                   (snd (redraw_bars d3_bin d3_nice data next group))).
  { unfold redraw_bars. apply join_Forall; intros; reflexivity. }
  destruct (redraw_bars d3_bin d3_nice data next group) as [n1 g1] eqn:E. simpl in *.
  unfold redraw_bars at 1.
  rewrite bindIndex_same_length by (rewrite <- Hdata; symmetry; apply length_map).
  rewrite (join_all_update
             (fun n b => (S n, bar d3_bin d3_nice data n b))
             (fun node b => bar d3_bin d3_nice data (rect_id node) b))
    by (rewrite <- Hdata; symmetry; apply length_map).
  f_equal. rewrite <- Hdata.
  apply (map_combine_self (fun node b => bar d3_bin d3_nice data (rect_id node) b)).
  exact Hbar.
Qed.

Lemma redraw_dots_of (data : list shot) (s : state) (v : view) :
  dots (redraw d3_bin d3_nice data s v) = snd (redraw_dots data s (next_id v) (dots v)).
Proof.
  unfold redraw. destruct (redraw_dots data s (next_id v) (dots v)) as [n1 cs].
  now destruct (redraw_bars d3_bin d3_nice data n1 (bars v)).
Qed.

Lemma redraw_bars_of (data : list shot) (s : state) (v : view) :
  bars (redraw d3_bin d3_nice data s v)
  = snd (redraw_bars d3_bin d3_nice data
           (fst (redraw_dots data s (next_id v) (dots v))) (bars v)).
Proof.
  unfold redraw. destruct (redraw_dots data s (next_id v) (dots v)) as [n1 cs].
  simpl fst. now destruct (redraw_bars d3_bin d3_nice data n1 (bars v)).
Qed.

(** A circle of [redraw_dots] costs one identifier, a bar none of the
    dots'; so a second [redraw_dots] starts from any counter. *)
Lemma redraw_dots_counter (data : list shot) (s : state) (group : list circle) :
  forall n m : nat,
    List.length group = List.length (filtered data s) ->
    redraw_dots data s n group = (n, snd (redraw_dots data s m group)).
Proof.
  intros n m Hlen. unfold redraw_dots.
  rewrite bindKey_index, bindIndex_same_length by exact Hlen.
  now rewrite !join_all_update by exact Hlen.
Qed.

(** C1.  The visible subset that [redraw] computes, and binds to the dots,
    is the intersection of the subsets that the criteria select one at a
    time (selected players, selected teams, result, distance band, brushed
    range), and it is the records of [data], in order, that satisfy all of
    them; an empty selection of players or of teams leaves nothing visible;
    and a visible record satisfies both the band and the brushed range. *)
Theorem visible_subset_is_intersection (data : list shot) (s : state) :
  (forall d,
      In d (filtered data s) <->
      In d (filter (fun d => includes (selPlayers s) (__player d)) data)
      /\ In d (filter (fun d => includes (selTeams s) (__team d)) data)
      /\ In d (by_result s data)
      /\ In d (by_band s data)
      /\ In d (by_brush s data))
  /\ filtered data s = filter (all_ok s) data
  /\ filtered data
       (mkState [] (selTeams s) (madeFilter s) (distFilter s) (brushedExtent s)) = []
  /\ filtered data
       (mkState (selPlayers s) [] (madeFilter s) (distFilter s) (brushedExtent s)) = []
  /\ (forall d, In d (filtered data s) -> In d (by_band s data) /\ In d (by_brush s data))
  /\ (forall next group,
         map circle_data (snd (redraw_dots data s next group)) = filtered data s).
Proof.
  assert (Hin : forall d,
      In d (filtered data s) <->
      In d (filter (fun d => includes (selPlayers s) (__player d)) data)
      /\ In d (filter (fun d => includes (selTeams s) (__team d)) data)
      /\ In d (by_result s data)
      /\ In d (by_band s data)
      /\ In d (by_brush s data)).
  { intros d.
    rewrite filtered_all_ok, by_result_ok, by_band_ok, by_brush_ok, !filter_In.
    unfold all_ok, actor_ok, group_ok. rewrite !andb_true_iff. tauto. }
  split; [exact Hin|].
  split; [apply filtered_all_ok|].
  split; [|split].
  - rewrite filtered_all_ok. apply filter_nothing. intros d. reflexivity.
  - rewrite filtered_all_ok. apply filter_nothing. intros d.
    unfold all_ok, actor_ok, group_ok; simpl.
    now rewrite andb_false_r.
  - split; [intros d Hd; apply Hin in Hd; tauto|].
    intros next group. apply redraw_dots_data.
Qed.

(** [redraw] after [redraw], the state unchanged, changes nothing. *)
Lemma redraw_twice (data : list shot) (s : state) (v : view) :
  redraw d3_bin d3_nice data s (redraw d3_bin d3_nice data s v)
  = redraw d3_bin d3_nice data s v.
Proof.
  pose proof (redraw_dots_again data s (next_id v) (dots v)) as Hdots.
  pose proof (redraw_dots_data data s (next_id v) (dots v)) as Hdata.
  unfold redraw at 2 3.
  destruct (redraw_dots data s (next_id v) (dots v)) as [n1 cs] eqn:Edots.
  pose proof (redraw_bars_again data n1 (bars v)) as Hbars.
  destruct (redraw_bars d3_bin d3_nice data n1 (bars v)) as [n2 bs] eqn:Ebars.
  simpl in Hdots, Hdata, Hbars.
  unfold redraw; simpl.
  rewrite (redraw_dots_counter data s cs n2 n1)
    by (rewrite <- Hdata; symmetry; apply length_map).
  rewrite Hdots; simpl. rewrite Hbars.
  destruct (brushedExtent s) as [[d0 d1]|]; reflexivity.
Qed.

(** [redraw] neither reads nor writes the zoom transform. *)
Lemma redraw_zoom (data : list shot) (s : state) (v : view)
    (t : option (float * float * float)) :
  redraw d3_bin d3_nice data s
    (mkView (next_id v) (dots v) (bars v) (brush_selection v) t)
  = let v' := redraw d3_bin d3_nice data s v in
    mkView (next_id v') (dots v') (bars v') (brush_selection v') t.
Proof.
  unfold redraw; simpl.
  destruct (redraw_dots data s (next_id v) (dots v)) as [n1 cs].
  destruct (redraw_bars d3_bin d3_nice data n1 (bars v)) as [n2 bs]. reflexivity.
Qed.

Lemma redraw_data (data : list shot) (s : state) (v : view) :
  map rect_data (bars (redraw d3_bin d3_nice data s v)) = bins d3_bin data
  /\ map circle_data (dots (redraw d3_bin d3_nice data s v)) = filtered data s.
Proof.
  rewrite redraw_bars_of, redraw_dots_of, redraw_bars_data, redraw_dots_data. now split.
Qed.

Lemma run_snoc (data : list shot) (es : list event) (e : event) :
  run d3_bin d3_nice data (es ++ [e])
  = handle d3_bin d3_nice data e (run d3_bin d3_nice data es).
Proof. unfold run. now rewrite fold_left_app. Qed.

(** After every sequence of events the bars carry the bins of the whole
    data set and the dots carry the visible subset of the current state. *)
Lemma run_data (data : list shot) (es : list event) :
  map rect_data (bars (snd (run d3_bin d3_nice data es))) = bins d3_bin data
  /\ map circle_data (dots (snd (run d3_bin d3_nice data es)))
     = filtered data (fst (run d3_bin d3_nice data es)).
Proof.
  induction es as [|e es IH] using rev_ind.
  - apply redraw_data.
  - rewrite run_snoc. destruct (run d3_bin d3_nice data es) as [s v].
    destruct e; simpl; try apply redraw_data. exact IH.
Qed.

Lemma redraw_bars_shape (data : list shot) (s : state) (v : view) :
  bars (redraw d3_bin d3_nice data s v)
  = map (fun r => bar d3_bin d3_nice data (rect_id r) (rect_data r))
      (bars (redraw d3_bin d3_nice data s v)).
Proof.
  rewrite redraw_bars_of.
  assert (Hbar : Forall (fun b => bar d3_bin d3_nice data (rect_id b) (rect_data b) = b)
                   (snd (redraw_bars d3_bin d3_nice data
                           (fst (redraw_dots data s (next_id v) (dots v))) (bars v)))).
  { unfold redraw_bars. apply join_Forall; intros; reflexivity. }
  induction Hbar as [|r l Hr _ IH]; simpl; [reflexivity | now rewrite Hr, <- IH].
Qed.

(** The document that a sequence of events leaves is one that [redraw]
    leaves unchanged. *)
Lemma run_redrawn (data : list shot) (es : list event) :
  redraw d3_bin d3_nice data
    (fst (run d3_bin d3_nice data es)) (snd (run d3_bin d3_nice data es))
  = snd (run d3_bin d3_nice data es).
Proof.
  induction es as [|e es IH] using rev_ind.
  - apply redraw_twice.
  - rewrite run_snoc. destruct (run d3_bin d3_nice data es) as [s v].
    destruct e; simpl; try apply redraw_twice.
    simpl in IH. rewrite redraw_zoom, IH. reflexivity.
Qed.

(** C2.  Whatever the filter state and the document before, the bars that
    [redraw] leaves carry the bins of [d3.bin] over the fixed domain of
    [hx] and the finite distances of the whole data set; so the bins and
    the geometry of the bars are the same under any two filter states, and
    they stay so after every sequence of control, brush and zoom events,
    while the data bound to the dots are the visible subset of the current
    state. *)
Theorem histogram_bins_invariant (data : list shot) :
  (forall s v,
      map rect_data (bars (redraw d3_bin d3_nice data s v))
      = d3_bin (0, hx_max data) 25%Z (filter isFinite (map __dist data)))
  /\ (forall s v s' v',
         map bar_shape (bars (redraw d3_bin d3_nice data s v))
         = map bar_shape (bars (redraw d3_bin d3_nice data s' v')))
  /\ (forall es,
         map rect_data (bars (snd (run d3_bin d3_nice data es)))
         = d3_bin (0, hx_max data) 25%Z (filter isFinite (map __dist data))
         /\ map circle_data (dots (snd (run d3_bin d3_nice data es)))
            = filtered data (fst (run d3_bin d3_nice data es))).
Proof.
  split; [|split].
  - intros s v. apply redraw_data.
  - assert (Hshape : forall s v,
        map bar_shape (bars (redraw d3_bin d3_nice data s v))
        = map (fun b => bar_shape (bar d3_bin d3_nice data 0 b)) (bins d3_bin data)).
    { intros s v. rewrite redraw_bars_shape, map_map.
      rewrite <- (proj1 (redraw_data data s v)), map_map. reflexivity. }
    intros s v s' v'. now rewrite !Hshape.
  - intros es. apply run_data.
Qed.

End Redraw.

(* ================================================================= *)
(** ** The calls of [redraw()] when a range is brushed *)

Section NestedCalls.

Local Open Scope float_scope.

Variable d3_bin : float * float -> Z -> list float -> list bin.
Variable d3_nice : float * float -> float * float.

Lemma redraw_nested_eq (data : list shot) (depth : nat) (p : page) :
  redraw_nested d3_bin d3_nice data depth p
  = match brushedExtent (vars p) with
    | None =>
        (mkPage (vars p) (redraw d3_bin d3_nice data (vars p) (doc p)) (brush_emitter p),
         Returns)
    | Some _ =>
        match depth with
        | O => (mkPage (vars p) (redraw d3_bin d3_nice data (vars p) (doc p))
                  (move_emitter (brush_emitter p)), StackOverflow)
        | S k =>
            redraw_nested d3_bin d3_nice data k
              (mkPage (brush_handler (hx data)
                         (brush_selection (redraw d3_bin d3_nice data (vars p) (doc p)))
                         (vars p))
                 (redraw d3_bin d3_nice data (vars p) (doc p))
                 (move_emitter (brush_emitter p)))
        end
    end.
Proof. destruct depth; reflexivity. Qed.

(** The selection that [brush.move] sets. *)
Lemma redraw_selection (data : list shot) (s : state) (v : view) :
  brush_selection (redraw d3_bin d3_nice data s v)
  = match brushedExtent s with
    | Some (d0, d1) =>
        Some (num_of (D3.apply (hx data) d0), num_of (D3.apply (hx data) d1))
    | None => brush_selection v
    end.
Proof.
  unfold redraw. destruct (redraw_dots data s (next_id v) (dots v)) as [n1 cs].
  now destruct (redraw_bars d3_bin d3_nice data n1 (bars v)).
Qed.

Lemma reenter_round_trip (data : list shot) (s : state) (v : view) (e : float * float) :
  brushedExtent s = Some e ->
  brush_handler (hx data) (brush_selection (redraw d3_bin d3_nice data s v)) s
  = round_trip data s.
Proof.
  intros He. rewrite redraw_selection. unfold round_trip. rewrite He.
  now destruct e.
Qed.

Lemma round_trip_brushed (data : list shot) (s : state) (e : float * float) :
  brushedExtent s = Some e -> exists e', brushedExtent (round_trip data s) = Some e'.
Proof.
  intros He. unfold round_trip. rewrite He. destruct e as [d0 d1]. eexists. reflexivity.
Qed.

Lemma round_trip_none (data : list shot) (s : state) :
  brushedExtent s = None -> round_trip data s = s.
Proof. intros He. unfold round_trip. now rewrite He. Qed.

Lemma settle_none (data : list shot) (depth : nat) (s : state) :
  brushedExtent s = None -> settle data depth s = s.
Proof.
  intros He. induction depth as [|k IH]; [reflexivity|].
  cbn [settle]. now rewrite round_trip_none.
Qed.

Lemma settle_fixed (data : list shot) (depth : nat) (s : state) :
  round_trip data s = s -> settle data depth s = s.
Proof.
  intros He. induction depth as [|k IH]; [reflexivity|]. cbn [settle]. now rewrite He.
Qed.

Lemma settle_brushed (data : list shot) (depth : nat) : forall (s : state) (e : float * float),
  brushedExtent s = Some e -> exists e', brushedExtent (settle data depth s) = Some e'.
Proof.
  induction depth as [|k IH]; intros s e He; [now exists e|].
  cbn [settle]. destruct (round_trip_brushed data s e He) as [e' He'].
  now apply (IH _ e').
Qed.

Lemma with_brush_round_trip (data : list shot) (s : state) (e : option (float * float)) :
  with_brush e (round_trip data s) = with_brush e s.
Proof.
  unfold round_trip. destruct (brushedExtent s) as [[d0 d1]|]; reflexivity.
Qed.

(** A new range makes the drift of the range before it void. *)
Lemma with_brush_settle (data : list shot) (depth : nat) (e : option (float * float)) :
  forall s : state, with_brush e (settle data depth s) = with_brush e s.
Proof.
  induction depth as [|k IH]; intros s; [reflexivity|].
  cbn [settle]. now rewrite IH, with_brush_round_trip.
Qed.

Lemma brush_handler_with_brush (h : D3.scale) (sel : option (float * float)) (s : state) :
  brush_handler h sel s
  = with_brush match sel with
               | None => None
               | Some (x0, x1) => Some (D3.invert h x0, D3.invert h x1)
               end s.
Proof. reflexivity. Qed.


(** With a brushed range the call never returns. *)
Lemma nested_overflows (data : list shot) (depth : nat) :
  forall (p : page) (e : float * float),
    brushedExtent (vars p) = Some e ->
    snd (redraw_nested d3_bin d3_nice data depth p) = StackOverflow.
Proof.
  induction depth as [|k IH]; intros p e He; rewrite redraw_nested_eq, He; [reflexivity|].
  destruct (round_trip_brushed data (vars p) e He) as [e' He'].
  apply (IH _ e'). cbn [vars]. now rewrite (reenter_round_trip data _ _ e He).
Qed.

(** The variables after the call. *)
Lemma nested_vars (data : list shot) (depth : nat) : forall p : page,
  vars (fst (redraw_nested d3_bin d3_nice data depth p)) = settle data depth (vars p).
Proof.
  induction depth as [|k IH]; intros p; rewrite redraw_nested_eq.
  - now destruct (brushedExtent (vars p)).
  - destruct (brushedExtent (vars p)) as [e|] eqn:He.
    + rewrite IH. cbn [vars settle]. now rewrite (reenter_round_trip data _ _ e He).
    + cbn [fst vars]. symmetry. now apply settle_none.
Qed.

(** The document after the call shows the records of the variables after
    the call, and the bins. *)
Lemma nested_visible (data : list shot) (depth : nat) : forall p : page,
  map circle_data (dots (doc (fst (redraw_nested d3_bin d3_nice data depth p))))
  = filtered data (vars (fst (redraw_nested d3_bin d3_nice data depth p))).
Proof.
  induction depth as [|k IH]; intros p; rewrite redraw_nested_eq.
  - destruct (brushedExtent (vars p)); cbn [fst doc vars]; apply redraw_data.
  - destruct (brushedExtent (vars p)); [apply IH|]. cbn [fst doc vars]. apply redraw_data.
Qed.

Lemma nested_bars (data : list shot) (depth : nat) : forall p : page,
  map rect_data (bars (doc (fst (redraw_nested d3_bin d3_nice data depth p))))
  = bins d3_bin data.
Proof.
  induction depth as [|k IH]; intros p; rewrite redraw_nested_eq.
  - destruct (brushedExtent (vars p)); cbn [fst doc]; apply redraw_data.
  - destruct (brushedExtent (vars p)); [apply IH|]. cbn [fst doc]. apply redraw_data.
Qed.

(** The selection the brush shows after a call with a brushed range. *)
Lemma nested_selection (data : list shot) (depth : nat) :
  forall (p : page) (e : float * float),
    brushedExtent (vars p) = Some e ->
    brush_selection (doc (fst (redraw_nested d3_bin d3_nice data depth p)))
    = match brushedExtent (settle data depth (vars p)) with
      | Some (d0, d1) =>
          Some (num_of (D3.apply (hx data) d0), num_of (D3.apply (hx data) d1))
      | None => None
      end.
Proof.
  induction depth as [|k IH]; intros p e He; rewrite redraw_nested_eq, He.
  - cbn [fst doc settle]. now rewrite redraw_selection, He.
  - destruct (round_trip_brushed data (vars p) e He) as [e' He'].
    rewrite (IH _ e'); cbn [vars settle]; now rewrite (reenter_round_trip data _ _ e He).
Qed.

Lemma move_emitter_iter (k n : nat) (c : bool) :
  Nat.iter k move_emitter (Some (mkEmitter n c)) = Some (mkEmitter (k + n) c).
Proof.
  induction k as [|k IH]; [reflexivity|]. now rewrite Nat.iter_succ, IH.
Qed.

(** Every nested call counts the emitter up and none counts it down. *)
Lemma nested_emitter (data : list shot) (depth : nat) :
  forall (p : page) (e : float * float),
    brushedExtent (vars p) = Some e ->
    brush_emitter (fst (redraw_nested d3_bin d3_nice data depth p))
    = Nat.iter (S depth) move_emitter (brush_emitter p).
Proof.
  induction depth as [|k IH]; intros p e He; rewrite redraw_nested_eq, He; [reflexivity|].
  destruct (round_trip_brushed data (vars p) e He) as [e' He'].
  rewrite (IH _ e') by (cbn [vars]; now rewrite (reenter_round_trip data _ _ e He)).
  cbn [brush_emitter]. now rewrite <- !Nat.iter_succ_r.
Qed.

(** The listener of the brush, called with a selection in a gesture: the
    call never returns, a range is stored, and the emitter of the gesture
    is left counted up. *)
Lemma brushed_in_gesture (data : list shot) (depth : nat) (p : page)
    (sel : float * float) (n : nat) (c : bool) :
  brush_emitter p = Some (mkEmitter n c) ->
  snd (listen d3_bin d3_nice data depth (Brushed (Some sel)) p) = StackOverflow
  /\ vars (fst (listen d3_bin d3_nice data depth (Brushed (Some sel)) p))
     = settle data depth (brush_handler (hx data) (Some sel) (vars p))
  /\ brush_emitter (fst (listen d3_bin d3_nice data depth (Brushed (Some sel)) p))
     = Some (mkEmitter (S (depth + n)) c).
Proof.
  intros Hem. cbn [listen assign]. destruct sel as [x0 x1].
  split; [|split].
  - eapply nested_overflows. reflexivity.
  - apply nested_vars.
  - erewrite nested_emitter by reflexivity. cbn [brush_emitter]. rewrite Hem.
    now rewrite move_emitter_iter.
Qed.

(** Releasing the pointer on an emitter that counts more than the gesture
    calls no listener. *)
Lemma up_without_end (data : list shot) (depth : nat) (p : page) (n : nat) (c : bool) :
  brush_emitter p = Some (mkEmitter (S (S n)) c) ->
  snd (gesture d3_bin d3_nice data depth PointerUp p) = Returns
  /\ vars (fst (gesture d3_bin d3_nice data depth PointerUp p)) = vars p
  /\ dots (doc (fst (gesture d3_bin d3_nice data depth PointerUp p))) = dots (doc p)
  /\ brush_selection (doc (fst (gesture d3_bin d3_nice data depth PointerUp p)))
     = match brush_selection (doc p) with
       | Some s => if empty_selection s then None else Some s
       | None => None
       end.
Proof.
  intros Hem. cbn [gesture]. rewrite Hem. now repeat split.
Qed.


(** C4.  The listener removes the range only when it is called with no
    selection.  A drag that comes back to where it began does not clear
    the range: the "brush" event of the way back carries a selection of no
    width, which the listener stores as a range of no width, and the "end"
    event of the release never comes, because the calls of [brush.move]
    that [redraw()] made in the gesture have counted the emitter up and,
    ending in the overflow, never down.  After a press at pixel 520, a
    drag to 600, back to 520 and the release, over records at 12, 17.5, 35
    and 35, the range is [17.5, 17.5], the brush shows nothing, and the one
    record at 17.5 is visible. *)
Theorem zero_width_drag_keeps_range :
  (forall h s, brushedExtent (brush_handler h None s) = None)
  /\ (forall h s x,
        brushedExtent (brush_handler h (Some (x, x)) s)
        = Some (D3.invert h x, D3.invert h x))
  /\ (forall data depth p sel n c,
        brush_emitter p = Some (mkEmitter (S n) c) ->
        snd (gesture d3_bin d3_nice data depth (PointerMove sel) p) = StackOverflow
        /\ (exists e,
              brushedExtent
                (vars (fst (gesture d3_bin d3_nice data depth (PointerMove sel) p)))
              = Some e)
        /\ snd (gesture d3_bin d3_nice data depth PointerUp
                  (fst (gesture d3_bin d3_nice data depth (PointerMove sel) p)))
           = Returns
        /\ vars (fst (gesture d3_bin d3_nice data depth PointerUp
                        (fst (gesture d3_bin d3_nice data depth (PointerMove sel) p))))
           = vars (fst (gesture d3_bin d3_nice data depth (PointerMove sel) p)))
  /\ (forall depth,
        let p0 := mkPage (fst (mount d3_bin d3_nice data_35))
                    (snd (mount d3_bin d3_nice data_35)) None in
        let p1 := fst (gesture d3_bin d3_nice data_35 depth (PointerDown (520, 520)) p0) in
        let p2 := fst (gesture d3_bin d3_nice data_35 depth (PointerMove (520, 600)) p1) in
        let p3 := fst (gesture d3_bin d3_nice data_35 depth (PointerMove (520, 520)) p2) in
        let p4 := fst (gesture d3_bin d3_nice data_35 depth PointerUp p3) in
        D3.domain (hx data_35) = (0, 35)
        /\ brushedExtent (vars p1) = None
        /\ snd (gesture d3_bin d3_nice data_35 depth (PointerMove (520, 520)) p2)
           = StackOverflow
        /\ brushedExtent (vars p3) = Some (17.5, 17.5)
        /\ snd (gesture d3_bin d3_nice data_35 depth PointerUp p3) = Returns
        /\ brushedExtent (vars p4) = Some (17.5, 17.5)
        /\ brush_selection (doc p4) = None
        /\ filtered data_35 (vars p4) = [shot_at "B" 17.5]
        /\ map circle_data (dots (doc p4)) = [shot_at "B" 17.5]
        /\ filtered data_35 (with_brush None (vars p4)) = data_35).
Proof.
  split; [reflexivity|]. split; [reflexivity|]. split.
  - intros data depth p sel n c Hem.
    destruct (brushed_in_gesture data depth p sel (S n) c Hem) as (Hend & Hvars & Hcount).
    change (gesture d3_bin d3_nice data depth (PointerMove sel) p)
      with (listen d3_bin d3_nice data depth (Brushed (Some sel)) p).
    split; [exact Hend|]. split.
    + rewrite Hvars. destruct sel as [x0 x1].
      apply (settle_brushed data depth _ (D3.invert (hx data) x0, D3.invert (hx data) x1)).
      reflexivity.
    + rewrite Nat.add_succ_r in Hcount.
      destruct (up_without_end data depth _ _ _ Hcount) as (Hup & Hsame & _).
      split; [exact Hup | exact Hsame].
  - intros depth p0 p1 p2 p3 p4.
    set (s3 := with_brush (Some (17.5, 17.5)) (init data_35)).
    assert (Hfix : settle data_35 depth s3 = s3).
    { apply settle_fixed. vm_compute. reflexivity. }
    destruct (brushed_in_gesture data_35 depth p1 (520, 600) 1 true eq_refl)
      as (_ & Hv2 & Hm2).
    change (listen d3_bin d3_nice data_35 depth (Brushed (Some (520, 600))) p1)
      with (gesture d3_bin d3_nice data_35 depth (PointerMove (520, 600)) p1) in Hv2, Hm2.
    fold p2 in Hv2, Hm2.
    destruct (brushed_in_gesture data_35 depth p2 (520, 520) _ true Hm2)
      as (Hend3 & Hv3 & Hm3).
    change (listen d3_bin d3_nice data_35 depth (Brushed (Some (520, 520))) p2)
      with (gesture d3_bin d3_nice data_35 depth (PointerMove (520, 520)) p2)
      in Hend3, Hv3, Hm3.
    fold p3 in Hv3, Hm3.
    assert (Hs3 : vars p3 = s3).
    { rewrite Hv3, Hv2, brush_handler_with_brush, with_brush_settle.
      replace (D3.invert (hx data_35) 520) with 17.5 by (vm_compute; reflexivity).
      exact Hfix. }
    rewrite Nat.add_succ_r in Hm3.
    destruct (up_without_end data_35 depth p3 _ _ Hm3) as (Hup & Hv4 & Hd4 & Hb4).
    fold p4 in Hv4, Hd4, Hb4.
    assert (Hsel3 : brush_selection (doc p3) = Some (520, 520)).
    { unfold p3. change (gesture d3_bin d3_nice data_35 depth (PointerMove (520, 520)) p2)
        with (redraw_nested d3_bin d3_nice data_35 depth
                (mkPage (brush_handler (hx data_35) (Some (520, 520)) (vars p2))
                   (set_selection (Some (520, 520)) (doc p2)) (brush_emitter p2))).
      erewrite nested_selection by reflexivity. cbn [vars].
      rewrite Hv2, brush_handler_with_brush, with_brush_settle.
      replace (D3.invert (hx data_35) 520) with 17.5 by (vm_compute; reflexivity).
      change (with_brush (Some (17.5, 17.5))
                (brush_handler (hx data_35) (Some (520, 600)) (vars p1))) with s3.
      rewrite Hfix. vm_compute. reflexivity. }
    split; [vm_compute; reflexivity|]. split; [reflexivity|].
    split; [exact Hend3|]. split; [now rewrite Hs3|]. split; [exact Hup|].
    split; [now rewrite Hv4, Hs3|]. split; [now rewrite Hb4, Hsel3|].
    split; [rewrite Hv4, Hs3; vm_compute; reflexivity|]. split.
    + rewrite Hd4. unfold p3.
      change (gesture d3_bin d3_nice data_35 depth (PointerMove (520, 520)) p2)
        with (redraw_nested d3_bin d3_nice data_35 depth
                (mkPage (brush_handler (hx data_35) (Some (520, 520)) (vars p2))
                   (set_selection (Some (520, 520)) (doc p2)) (brush_emitter p2))).
      rewrite nested_visible.
      change (redraw_nested d3_bin d3_nice data_35 depth
                (mkPage (brush_handler (hx data_35) (Some (520, 520)) (vars p2))
                   (set_selection (Some (520, 520)) (doc p2)) (brush_emitter p2)))
        with (gesture d3_bin d3_nice data_35 depth (PointerMove (520, 520)) p2).
      fold p3. rewrite Hs3. vm_compute. reflexivity.
    + rewrite Hv4, Hs3. vm_compute. reflexivity.
Qed.

End NestedCalls.

(* ================================================================= *)
(** ** The brush *)

Section Brush.

Local Open Scope float_scope.

Lemma filtered_brushed (data : list shot) (s : state) (e : option (float * float)) :
  filtered data
    (mkState (selPlayers s) (selTeams s) (madeFilter s) (distFilter s) e)
  = by_brush (mkState (selPlayers s) (selTeams s) (madeFilter s) (distFilter s) e)
      (by_band s (by_result s (by_selection s data))).
Proof. reflexivity. Qed.

(** C3.  Through a linear scale with domain [0, 35] and range [0, 1000] a
    drag from pixel 0 to pixel 500 inverts to the range [0, 17.5], which
    the listener stores; the visible subset is then exactly the records
    that pass the other criteria and whose distance [d] has
    [0 <= d <= 17.5], both ends included: of records at 12, 17.5, 35 and
    35 those at 12 and 17.5.  The range goes back to the pixels 0 and 500,
    so the call of [brush.move] leaves it as it is.  (With the component's
    own width, 1040, the same range comes from the drag from 0 to 520.) *)
Theorem brush_inversion_roundtrip :
  let hx35 := D3.scaleLinear (0, 35) (0, 1000) in
  D3.invert hx35 0 = 0
  /\ D3.invert hx35 500 = 17.5
  /\ (forall s, brushedExtent (brush_handler hx35 (Some (0, 500)) s) = Some (0, 17.5))
  /\ (forall data s,
         filtered data (brush_handler hx35 (Some (0, 500)) s)
         = filter (fun d => PrimFloat.leb 0 (__dist d) && PrimFloat.leb (__dist d) 17.5)
             (by_band s (by_result s (by_selection s data))))
  /\ (forall data s d,
         In d (filtered data (brush_handler hx35 (Some (0, 500)) s))
         <-> In d (by_band s (by_result s (by_selection s data)))
             /\ PrimFloat.leb 0 (__dist d) = true /\ PrimFloat.leb (__dist d) 17.5 = true)
  /\ (forall data s d,
         In d (by_band s (by_result s (by_selection s data))) ->
         __dist d = 0 \/ __dist d = 17.5 ->
         In d (filtered data (brush_handler hx35 (Some (0, 500)) s)))
  /\ filtered data_35 (brush_handler hx35 (Some (0, 500)) (init data_35))
     = [shot_at "A" 12; shot_at "B" 17.5]
  /\ D3.apply hx35 0 = Some 0
  /\ D3.apply hx35 17.5 = Some 500
  /\ D3.invert (D3.scaleLinear (0, 35) (0, HW)) 520 = 17.5.
Proof.
  intros hx35.
  assert (H0 : D3.invert hx35 0 = 0) by (vm_compute; reflexivity).
  assert (H500 : D3.invert hx35 500 = 17.5) by (vm_compute; reflexivity).
  assert (Hf : forall data s,
         filtered data (brush_handler hx35 (Some (0, 500)) s)
         = filter (fun d => PrimFloat.leb 0 (__dist d) && PrimFloat.leb (__dist d) 17.5)
             (by_band s (by_result s (by_selection s data)))).
  { intros data s. unfold brush_handler. rewrite H0, H500. reflexivity. }
  assert (Hin : forall data s d,
         In d (filtered data (brush_handler hx35 (Some (0, 500)) s))
         <-> In d (by_band s (by_result s (by_selection s data)))
             /\ PrimFloat.leb 0 (__dist d) = true /\ PrimFloat.leb (__dist d) 17.5 = true).
  { intros data s d. rewrite Hf, filter_In, andb_true_iff. tauto. }
  split; [exact H0|]. split; [exact H500|].
  split; [intros s; unfold brush_handler; simpl; now rewrite H0, H500|].
  split; [exact Hf|]. split; [exact Hin|].
  split; [|split; [|split; [|split]]]; try (vm_compute; reflexivity).
  intros data s d Hd Hends. apply Hin. split; [exact Hd|].
  destruct Hends as [-> | ->]; split; reflexivity.
Qed.

End Brush.

(* ================================================================= *)
(** ** Normalisation *)

Section Normalisation.

Lemma strict_eq_eq_str (v : jsval) (t : string) :
  strict_eq v (JStr t) = true <-> v = JStr t.
Proof.
  destruct v; simpl; try (split; [discriminate | discriminate]).
  rewrite String.eqb_eq. split; congruence.
Qed.

Lemma strict_eq_eq_bool (v : jsval) (b : bool) :
  strict_eq v (JBool b) = true <-> v = JBool b.
Proof.
  destruct v; simpl; try (split; [discriminate | discriminate]).
  rewrite Bool.eqb_true_iff. split; congruence.
Qed.

(** C7.  The made flag that normalisation gives a row is 1 exactly when
    the value of its made column is the string "TRUE", the boolean true,
    or a value whose number is 1; it is 0 for every other value.  So
    "TRUE", true, the number 1 and the string "1" give 1, and "FALSE", the
    number 0, the string "0", the empty string, undefined, null, false and
    "true" give 0. *)
Theorem made_coercion (v : jsval) :
  (made_of v = 1
   <-> v = JStr "TRUE" \/ v = JBool true \/ num_eq (ToNumber v) 1 = true)
  /\ (made_of v = 1 \/ made_of v = 0)
  /\ made_of (JStr "TRUE") = 1
  /\ made_of (JBool true) = 1
  /\ made_of (JNum 1) = 1
  /\ made_of (JStr "1") = 1
  /\ made_of (JStr "FALSE") = 0
  /\ made_of (JNum 0) = 0
  /\ made_of (JStr "0") = 0
  /\ made_of (JStr "") = 0
  /\ made_of JUndefined = 0
  /\ made_of JNull = 0
  /\ made_of (JBool false) = 0
  /\ made_of (JStr "true") = 0
  /\ (forall parseMDY c d, __made (normalise parseMDY c d) = made_of (d (col_made c))).
Proof.
  split; [|split; [|repeat split; vm_compute; reflexivity]].
  - unfold made_of.
    rewrite <- strict_eq_eq_str, <- strict_eq_eq_bool.
    destruct (strict_eq v (JStr "TRUE")), (strict_eq v (JBool true)),
      (num_eq (ToNumber v) 1); simpl; intuition congruence.
  - unfold made_of.
    destruct (strict_eq v (JStr "TRUE") || strict_eq v (JBool true)
              || num_eq (ToNumber v) 1); auto.
Qed.

End Normalisation.

(* ================================================================= *)
(** ** The domain of the histogram *)

Section HistogramDomain.

Local Open Scope float_scope.

Variable d3_bin : float * float -> Z -> list float -> list bin.
Variable d3_nice : float * float -> float * float.

(** C8, the claim at a data set whose one distance is 0: the 99th
    percentile of the finite distances is 0, the upper bound of the domain
    is 35. *)
Lemma hx_max_zero_percentile :
  let data0 := [mkShot 0 0 1 (JStr "A") (JStr "T") 0 None None None None] in
  D3.quantile (D3.sort_ascending (filter isFinite (map __dist data0))) 0.99 = Some 0
  /\ D3.domain (hx data0) = (0, 35).
Proof. vm_compute. split; reflexivity. Qed.

(** C8, as the code has it.  The domain of [hx] depends on the data alone:
    it is [0, q] where [q] is the 99th percentile of the finite distances
    of the whole data set, if there is one and it is neither 0 nor NaN,
    and [0, 35] otherwise.  After every sequence of events, and after
    every call of [redraw()] however deep it nests, the bars carry the
    bins over that domain; and in every state the listener inverts a
    brushed selection through the scale with that domain. *)
Theorem hx_domain_fixed (data : list shot) :
  D3.domain (hx data)
  = (0, match D3.quantile (D3.sort_ascending (filter isFinite (map __dist data))) 0.99 with
        | Some q => if PrimFloat.is_zero q || PrimFloat.is_nan q then 35 else q
        | None => 35
        end)
  /\ (forall es,
         map rect_data (bars (snd (run d3_bin d3_nice data es)))
         = d3_bin (D3.domain (hx data)) 25%Z (filter isFinite (map __dist data)))
  /\ (forall depth p,
         map rect_data (bars (doc (fst (redraw_nested d3_bin d3_nice data depth p))))
         = d3_bin (D3.domain (hx data)) 25%Z (filter isFinite (map __dist data)))
  /\ (forall s p0 p1,
         brushedExtent (brush_handler (hx data) (Some (p0, p1)) s)
         = Some (D3.invert (D3.scaleLinear (D3.domain (hx data)) (0, HW)) p0,
                 D3.invert (D3.scaleLinear (D3.domain (hx data)) (0, HW)) p1)).
Proof.
  split; [|split; [|split]].
  - unfold hx, hx_max; simpl.
    destruct (D3.quantile _ _) as [q|]; [|reflexivity].
    now destruct (PrimFloat.is_zero q || PrimFloat.is_nan q).
  - intros es. apply run_data.
  - intros depth p. apply nested_bars.
  - intros s p0 p1. reflexivity.
Qed.

End HistogramDomain.

(* ================================================================= *)
(** ** Reconciliation of the dots *)

Section Reconciliation.

Local Open Scope float_scope.

(** C5, the code at two records.  Both are drawn; then only B stays
    selected.  B, still visible, loses its circle (node 1); the circle of
    A (node 0) stays, at A's position and in A's colour, bound to B. *)
Lemma index_key_not_stable :
  let data := [shot_A; shot_B] in
  let s1 := mkState [JStr "A"; JStr "B"] [JStr "T"] "All" "All" None in
  let s2 := mkState [JStr "B"] [JStr "T"] "All" "All" None in
  let v1 := redraw_dots data s1 0 [] in
  let v2 := redraw_dots data s2 (fst v1) (snd v1) in
  map (fun c => (circle_id c, cx c, fill c, __player (circle_data c))) (snd v1)
  = [(0%nat, Some 90, "#4a90e2", JStr "A"); (1%nat, Some 990, "#e74c3c", JStr "B")]
  /\ filtered data s2 = [shot_B]
  /\ map (fun c => (circle_id c, cx c, fill c, __player (circle_data c))) (snd v2)
     = [(0%nat, Some 90, "#4a90e2", JStr "B")].
Proof. vm_compute. repeat split; reflexivity. Qed.

End Reconciliation.

(* ================================================================= *)
(** ** Sets, the default sort and the selection at mount *)

Section SortFacts.

Context {A : Type}.
Variable le : A -> A -> bool.

Lemma insert_by_perm (x : A) (l : list A) : Permutation (insert_by le x l) (x :: l).
Proof.
  induction l as [|y l IH]; simpl; [reflexivity|].
  destruct (le x y); [reflexivity|].
  rewrite IH. apply perm_swap.
Qed.

Lemma sort_by_perm (l : list A) : Permutation (sort_by le l) l.
Proof.
  induction l as [|x l IH]; simpl; [reflexivity|].
  rewrite insert_by_perm. now constructor.
Qed.

Hypothesis le_total : forall a b, le a b = true \/ le b a = true.
Hypothesis le_trans : forall a b c, le a b = true -> le b c = true -> le a c = true.

Lemma insert_by_sorted (x : A) (l : list A) :
  StronglySorted (fun a b => le a b = true) l ->
  StronglySorted (fun a b => le a b = true) (insert_by le x l).
Proof.
  induction 1 as [|y l Hl IH Hy]; simpl.
  - constructor; constructor.
  - destruct (le x y) eqn:Exy.
    + constructor; [now constructor|].
      constructor; [exact Exy|].
      eapply Forall_impl; [|exact Hy]. intros z Hz. now apply (le_trans x y z).
    + constructor; [exact IH|].
      apply (Permutation_Forall (Permutation_sym (insert_by_perm x l))).
      constructor; [|exact Hy].
      destruct (le_total x y) as [H|H]; congruence.
Qed.

Lemma sort_by_sorted (l : list A) : StronglySorted (fun a b => le a b = true) (sort_by le l).
Proof.
  induction l as [|x l IH]; simpl; [constructor | now apply insert_by_sorted].
Qed.

End SortFacts.

Section DefaultSort.

Lemma units_leb_total (a : list Z) : forall b : list Z,
  units_leb a b = true \/ units_leb b a = true.
Proof.
  induction a as [|x a IH]; intros [|y b]; simpl; auto.
  destruct (Z.ltb_spec x y), (Z.ltb_spec y x); auto; lia.
Qed.

Lemma units_leb_trans (a : list Z) : forall b c : list Z,
  units_leb a b = true -> units_leb b c = true -> units_leb a c = true.
Proof.
  induction a as [|x a IH]; intros [|y b] [|z c]; simpl; auto; try discriminate.
  destruct (Z.ltb_spec x y), (Z.ltb_spec y x), (Z.ltb_spec y z), (Z.ltb_spec z y),
    (Z.ltb_spec x z), (Z.ltb_spec z x); auto; try discriminate; try lia.
  apply IH.
Qed.

Lemma filter_split_perm {A : Type} (p : A -> bool) (l : list A) :
  Permutation (filter (fun a => negb (p a)) l ++ filter p l) l.
Proof.
  induction l as [|a l IH]; simpl; [reflexivity|].
  destruct (p a); simpl.
  - symmetry. apply Permutation_cons_app. now symmetry.
  - now constructor.
Qed.

Lemma StronglySorted_app {A : Type} (R : A -> A -> Prop) (l1 l2 : list A) :
  StronglySorted R l1 -> StronglySorted R l2 ->
  (forall a b, In a l1 -> In b l2 -> R a b) ->
  StronglySorted R (l1 ++ l2).
Proof.
  induction 1 as [|a l1 Hl1 IH Ha]; intros H2 Hcross; simpl; [exact H2|].
  constructor.
  - apply IH; [exact H2|]. intros x b Hx Hb. apply Hcross; [now right | exact Hb].
  - apply Forall_app. split; [exact Ha|].
    apply Forall_forall. intros b Hb. apply Hcross; [now left | exact Hb].
Qed.

Lemma StronglySorted_all {A : Type} (R : A -> A -> Prop) (l : list A) :
  (forall a b, In b l -> R a b) -> StronglySorted R l.
Proof.
  induction l as [|x l IH]; intros H; constructor.
  - apply IH. intros a b Hb. apply H. now right.
  - apply Forall_forall. intros b Hb. apply H. now right.
Qed.

Lemma StronglySorted_weaken {A : Type} (R1 R2 : A -> A -> Prop) (P : A -> Prop)
    (l : list A) :
  (forall a b, P a -> R1 a b -> R2 a b) ->
  Forall P l -> StronglySorted R1 l -> StronglySorted R2 l.
Proof.
  intros Himp HP HS. induction HS as [|a l Hl IH Ha]; constructor.
  - apply IH. now inversion HP.
  - inversion HP; subst. eapply Forall_impl; [|exact Ha]. intros b. now apply Himp.
Qed.

(** [arr.sort()] keeps the elements of the array. *)
Lemma sort_default_perm (arr : list jsval) : Permutation (sort_default arr) arr.
Proof.
  unfold sort_default. rewrite sort_by_perm. apply filter_split_perm.
Qed.

(** [arr.sort()] leaves the array in the default order. *)
Lemma sort_default_sorted (arr : list jsval) :
  StronglySorted (fun a b => default_le a b = true) (sort_default arr).
Proof.
  unfold sort_default. apply StronglySorted_app.
  - apply (StronglySorted_weaken
             (fun a b => string_leb (ToString a) (ToString b) = true) _
             (fun a => is_undefined a = false)).
    + intros a b Ha Hab. unfold default_le. rewrite Ha, Hab. apply orb_true_r.
    + apply (Permutation_Forall (Permutation_sym (sort_by_perm _ _))).
      apply Forall_forall. intros a Ha. apply filter_In in Ha.
      now destruct (is_undefined a).
    + apply sort_by_sorted.
      * intros a b. apply units_leb_total.
      * intros a b c. apply units_leb_trans.
  - apply StronglySorted_all. intros a b Hb. apply filter_In in Hb.
    unfold default_le. now rewrite (proj2 Hb).
  - intros a b _ Hb. apply filter_In in Hb. unfold default_le. now rewrite (proj2 Hb).
Qed.

End DefaultSort.

Section SetFacts.

Lemma is_zero_eqb (f : float) :
  PrimFloat.is_zero f = true -> PrimFloat.eqb PrimFloat.zero f = true.
Proof.
  unfold PrimFloat.is_zero. rewrite !FloatAxioms.eqb_spec.
  change (Prim2SF PrimFloat.zero) with (S754_zero false).
  now destruct (Prim2SF f) as [[]|[]| |[] m e].
Qed.

Lemma same_value_zero_refl (v : jsval) : same_value_zero v v = true.
Proof.
  destruct v as [| |b|f|s]; simpl; try reflexivity.
  - now destruct b.
  - unfold num_eq, PrimFloat.is_nan. now destruct (PrimFloat.eqb f f).
  - apply String.eqb_refl.
Qed.

Lemma includes_app (l1 l2 : list jsval) (v : jsval) :
  includes (l1 ++ l2) v = includes l1 v || includes l2 v.
Proof. unfold includes. apply existsb_app. Qed.

Lemma includes_In (l : list jsval) (v : jsval) : In v l -> includes l v = true.
Proof.
  intros Hin. unfold includes. apply existsb_exists. exists v.
  split; [exact Hin | apply same_value_zero_refl].
Qed.

Lemma includes_perm (l l' : list jsval) (v : jsval) :
  Permutation l l' -> includes l v = includes l' v.
Proof.
  intros Hp. unfold includes.
  destruct (existsb (fun e => same_value_zero e v) l') eqn:E.
  - apply existsb_exists in E. destruct E as [x [Hx Hv]].
    apply existsb_exists. exists x. split; [|exact Hv].
    now apply (Permutation_in _ (Permutation_sym Hp)).
  - destruct (existsb (fun e => same_value_zero e v) l) eqn:E'; [|reflexivity].
    apply existsb_exists in E'. destruct E' as [x [Hx Hv]].
    rewrite <- E. symmetry. apply existsb_exists. exists x. split; [|exact Hv].
    now apply (Permutation_in _ Hp).
Qed.

(** Once a value is in the set it stays. *)
Lemma set_add_keeps (acc : list jsval) (w v : jsval) :
  includes acc v = true -> includes (set_add acc w) v = true.
Proof.
  intros H. unfold set_add. destruct (includes acc w); [exact H|].
  rewrite includes_app, H. reflexivity.
Qed.

(** A value is in the set once it is added. *)
Lemma set_add_adds (acc : list jsval) (v : jsval) : includes (set_add acc v) v = true.
Proof.
  unfold set_add. destruct (includes acc v) eqn:E; [exact E|].
  rewrite includes_app, E. simpl. rewrite orb_false_r.
  destruct v as [| |b|f|s]; try apply same_value_zero_refl.
  destruct (PrimFloat.is_zero f) eqn:Ez; [|apply same_value_zero_refl].
  simpl. unfold num_eq. now rewrite (is_zero_eqb f Ez).
Qed.

Lemma set_fold_keeps (l : list jsval) : forall (acc : list jsval) (v : jsval),
  includes acc v = true -> includes (fold_left set_add l acc) v = true.
Proof.
  induction l as [|w l IH]; intros acc v H; simpl; [exact H|].
  apply IH. now apply set_add_keeps.
Qed.

(** [new Set(arr)] has every value of [arr]. *)
Lemma includes_set_from (arr : list jsval) (v : jsval) :
  In v arr -> includes (set_from arr) v = true.
Proof.
  unfold set_from. generalize (@nil jsval) as acc.
  induction arr as [|w arr IH]; intros acc Hin; simpl; [destruct Hin|].
  destruct Hin as [->|Hin]; [|now apply IH].
  apply set_fold_keeps, set_add_adds.
Qed.

Lemma set_add_from (acc : list jsval) (v p : jsval) :
  In p (set_add acc v) -> In p acc \/ same_value_zero p v = true.
Proof.
  unfold set_add. destruct (includes acc v); [now left|].
  intros H. apply in_app_or in H. destruct H as [H | [<- | []]]; [now left|]. right.
  destruct v as [| |b|f|s]; try apply same_value_zero_refl.
  destruct (PrimFloat.is_zero f) eqn:Ez; [|apply same_value_zero_refl].
  simpl. unfold num_eq. now rewrite (is_zero_eqb f Ez).
Qed.

(** Every value of the set was put into it. *)
Lemma set_fold_from (l : list jsval) : forall (acc : list jsval) (p : jsval),
  In p (fold_left set_add l acc) ->
  In p acc \/ exists v, In v l /\ same_value_zero p v = true.
Proof.
  induction l as [|a l IH]; intros acc p H; [now left|].
  simpl in H. apply IH in H. destruct H as [H | [v [Hv Hs]]].
  - apply set_add_from in H. destruct H as [H | H]; [now left|].
    right. exists a. split; [now left | exact H].
  - right. exists v. split; [now right | exact Hs].
Qed.

End SetFacts.

Section InitialSelection.

Lemma set_add_NoDup (acc : list jsval) (v : jsval) : NoDup acc -> NoDup (set_add acc v).
Proof.
  intros Hnd. unfold set_add. destruct (includes acc v) eqn:E; [exact Hnd|].
  apply NoDup_app; [exact Hnd | repeat constructor; intros [] |].
  intros x Hx [<-|[]].
  pose proof (set_add_adds acc v) as Hadd. unfold set_add in Hadd.
  rewrite E, includes_app, E in Hadd. simpl in Hadd. rewrite orb_false_r in Hadd.
  assert (Hinc : includes acc v = true); [|congruence].
  apply existsb_exists. eexists. split; [exact Hx | exact Hadd].
Qed.

(** [new Set(arr)] has no value twice. *)
Lemma set_from_NoDup (arr : list jsval) : NoDup (set_from arr).
Proof.
  unfold set_from. assert (H : NoDup (@nil jsval)) by constructor.
  revert H. generalize (@nil jsval) as acc.
  induction arr as [|w arr IH]; intros acc H; simpl; [exact H|].
  apply IH. now apply set_add_NoDup.
Qed.

Lemma slice0_min {A : Type} (l : list A) :
  slice0 (Z.min 5 (Z.of_nat (List.length l))) l = firstn 5 l.
Proof.
  unfold slice0. destruct (Z.min_spec 5 (Z.of_nat (List.length l))) as [[Hlt ->]|[Hle ->]].
  - reflexivity.
  - rewrite Nat2Z.id, firstn_all. symmetry. apply firstn_all2. lia.
Qed.

Lemma includes_all_sorted (l : list jsval) (v : jsval) :
  In v l -> includes (sort_default (set_from l)) v = true.
Proof.
  intros Hin. rewrite (includes_perm _ _ v (sort_default_perm (set_from l))).
  now apply includes_set_from.
Qed.

(** C10.  At mount the selected players are the first five of the distinct
    player values in the default sort order (all of them when there are at
    most five); these values are the players of the records and no others;
    the order is that of the strings, UTF-16 code unit by code unit, so a
    name that begins with a character outside the basic plane comes before
    one that begins at U+FF21.  Every team is selected, and the visible
    subset, which the first draw binds to the dots, is the records whose
    player is among those five: no other record is in it. *)
Theorem initial_selection
    (d3_bin : float * float -> Z -> list float -> list bin)
    (d3_nice : float * float -> float * float) (data : list shot) :
  selPlayers (init data) = firstn 5 (allPlayers data)
  /\ ((List.length (allPlayers data) <= 5)%nat -> selPlayers (init data) = allPlayers data)
  /\ StronglySorted (fun a b => default_le a b = true) (allPlayers data)
  /\ NoDup (allPlayers data)
  /\ (forall d, In d data -> includes (allPlayers data) (__player d) = true)
  /\ (forall p, In p (allPlayers data) ->
        exists d, In d data /\ same_value_zero p (__player d) = true)
  /\ (forall a b, default_le (JStr a) (JStr b) = units_leb (utf16 a) (utf16 b))
  /\ sort_default [JStr "Ａ"; JStr "😀"; JStr "b"; JStr "B"]
     = [JStr "B"; JStr "b"; JStr "😀"; JStr "Ａ"]
  /\ selTeams (init data) = allTeams data
  /\ (forall d, In d data -> includes (allTeams data) (__team d) = true)
  /\ filtered data (init data)
     = filter (fun d => includes (firstn 5 (allPlayers data)) (__player d)) data
  /\ (forall d, In d (filtered data (init data)) <->
                In d data /\ includes (firstn 5 (allPlayers data)) (__player d) = true)
  /\ map circle_data (dots (snd (mount d3_bin d3_nice data))) = filtered data (init data).
Proof.
  assert (Hsel : selPlayers (init data) = firstn 5 (allPlayers data))
    by apply slice0_min.
  assert (Hteams : forall d, In d data -> includes (allTeams data) (__team d) = true).
  { intros d Hd. apply includes_all_sorted. now apply in_map. }
  assert (Hfil : filtered data (init data)
     = filter (fun d => includes (firstn 5 (allPlayers data)) (__player d)) data).
  { rewrite filtered_all_ok. apply filter_ext_in. intros d Hd.
    unfold all_ok, actor_ok, group_ok, outcome_ok, band_ok, range_ok.
    rewrite Hsel. simpl. rewrite (Hteams d Hd). now rewrite !andb_true_r. }
  split; [exact Hsel|].
  split; [|split; [|split; [|split; [|split; [|split; [|split; [|split; [|split]]]]]]]].
  - intros Hlen. rewrite Hsel. now apply firstn_all2.
  - apply sort_default_sorted.
  - apply (Permutation_NoDup (Permutation_sym (sort_default_perm _))), set_from_NoDup.
  - intros d Hd. apply includes_all_sorted. now apply in_map.
  - intros p Hp.
    apply (Permutation_in p (sort_default_perm (set_from (map __player data)))) in Hp.
    apply set_fold_from in Hp. destruct Hp as [[] | [v [Hv Hs]]].
    apply in_map_iff in Hv. destruct Hv as [d [Hd Hin]]. subst v. now exists d.
  - intros a b. reflexivity.
  - vm_compute. reflexivity.
  - reflexivity.
  - exact Hteams.
  - split; [exact Hfil|]. split.
    + intros d. rewrite Hfil. apply filter_In.
    + apply (proj2 (redraw_data d3_bin d3_nice data (init data) empty_view)).
Qed.

End InitialSelection.

(* ================================================================= *)
(** ** The tooltip *)

Section DecimalText.

Lemma all_digits_app (s t : string) :
  all_digits (s ++ t) = all_digits s && all_digits t.
Proof.
  induction s as [|c s IH]; simpl; [reflexivity|]. now rewrite IH, andb_assoc.
Qed.

Lemma length_app (s t : string) :
  String.length (s ++ t) = (String.length s + String.length t)%nat.
Proof. induction s as [|c s IH]; simpl; [reflexivity | now rewrite IH]. Qed.

Lemma all_digits_zeros (n : Z) : all_digits (zeros n) = true.
Proof. unfold zeros. induction (Z.to_nat n) as [|k IH]; simpl; auto. Qed.

Lemma length_zeros (n : Z) : String.length (zeros n) = Z.to_nat n.
Proof. unfold zeros. induction (Z.to_nat n) as [|k IH]; simpl; auto. Qed.

Lemma all_digits_uint (d : Decimal.uint) :
  all_digits (NilEmpty.string_of_uint d) = true.
Proof. induction d; simpl; auto. Qed.

(** The decimal text of a natural number: digits, at least one. *)
Lemma digits_of_digits (z : Z) :
  all_digits (digits_of z) = true /\ digits_of z <> "".
Proof.
  unfold digits_of, NilZero.string_of_uint.
  pose proof (all_digits_uint (N.to_uint (Z.to_N z))) as H.
  destruct (N.to_uint (Z.to_N z)); split;
    try reflexivity; try discriminate; exact H.
Qed.

(** A string that is not empty is its last character after all the
    others, which [slice] separates. *)
Lemma last_split (s : string) :
  s <> "" ->
  exists init c,
    s = init ++ String c ""
    /\ take_str (slen s - 1) s = init
    /\ drop_str (slen s - 1) s = String c "".
Proof.
  unfold take_str, drop_str, slen.
  induction s as [|a s IH]; intros Hne; [congruence|].
  destruct s as [|b s].
  - exists "", a. simpl. repeat split.
  - destruct IH as [init [c [Hs [Htake Hdrop]]]]; [discriminate|].
    exists (String a init), c.
    replace (Z.to_nat (Z.of_nat (String.length (String a (String b s))) - 1))
      with (S (Z.to_nat (Z.of_nat (String.length (String b s)) - 1)))
      by (simpl String.length; lia).
    split; [simpl; now rewrite <- Hs|]. split.
    + change (String a (String.substring 0
                (Z.to_nat (Z.of_nat (String.length (String b s)) - 1)) (String b s))
              = String a init).
      now rewrite Htake.
    + rewrite <- Hdrop. reflexivity.
Qed.

(** [x.toFixed(1)] of a finite [x] below [10^21] in magnitude: a sign,
    digits, a point and one digit. *)
Lemma toFixed1_shape (x : float) (neg : bool) (num den : Z) :
  exact x = Some (neg, num, den) ->
  num < 10 ^ 21 * den ->
  exists whole c,
    toFixed x 1 = (if neg && negb (num =? 0) then "-" else "") ++ whole ++ "." ++ String c ""
    /\ all_digits whole = true /\ whole <> "" /\ is_digit c = true.
Proof.
  intros Hex Hlt. unfold toFixed. rewrite Hex.
  destruct (10 ^ 21 * den <=? num) eqn:Ebig; [apply Z.leb_le in Ebig; lia|].
  change (0 <? 1) with true. cbn [andb]. cbv iota.
  set (n := (2 * num * 10 ^ 1 + den) / (2 * den)).
  set (m := if slen (digits_of n) <=? 1
            then zeros (1 + 1 - slen (digits_of n)) ++ digits_of n else digits_of n).
  destruct (digits_of_digits n) as [Hdig Hne].
  assert (Hm : all_digits m = true /\ (2 <= String.length m)%nat).
  { unfold m, slen. destruct (Z.of_nat (String.length (digits_of n)) <=? 1) eqn:E.
    - apply Z.leb_le in E. rewrite all_digits_app, all_digits_zeros, Hdig, length_app,
        length_zeros. split; [reflexivity | lia].
    - apply Z.leb_gt in E. split; [exact Hdig | lia]. }
  destruct Hm as [Hmd Hml].
  destruct (last_split m) as [init [c [Hs [Htake Hdrop]]]].
  { intros ->. simpl in Hml. lia. }
  exists init, c. rewrite Htake, Hdrop. split; [reflexivity|].
  rewrite Hs, all_digits_app in Hmd. apply andb_true_iff in Hmd. destruct Hmd as [Hi Hc].
  simpl in Hc. rewrite andb_true_r in Hc. repeat split; try assumption.
  intros ->. rewrite Hs in Hml. simpl in Hml. lia.
Qed.

(** [s.padStart(2, "0")] has two characters at least, and is [s] itself
    when [s] has. *)
Lemma padStart0_length (s : string) : 2 <= slen (padStart0 2 s).
Proof.
  unfold padStart0, slen. destruct (2 <=? Z.of_nat (String.length s)) eqn:E.
  - now apply Z.leb_le in E.
  - apply Z.leb_gt in E. rewrite length_app, length_zeros. lia.
Qed.

End DecimalText.

Section Tooltip.

Local Open Scope float_scope.

(** A number with an exact fraction is finite. *)
Lemma exact_isFinite (x : float) (r : bool * Z * Z) :
  exact x = Some r -> isFinite x = true.
Proof.
  unfold exact, isFinite, PrimFloat.is_finite, PrimFloat.is_nan, PrimFloat.is_infinity.
  rewrite !FloatAxioms.eqb_spec, FloatAxioms.abs_spec.
  change (Prim2SF infinity) with (S754_infinity false).
  destruct (Prim2SF x) as [s|s| |s m e]; try discriminate; intros _.
  - now destruct s.
  - unfold SFeqb; simpl. rewrite Z.compare_refl, Pos.compare_cont_refl. now destruct s.
Qed.

(** C9, the claim at two records.  With a period and neither minutes nor
    seconds the seconds read "00", not the empty string; and a distance of
    [10^21] reads in exponent notation, with no decimal place. *)
Lemma tooltip_seconds_and_large_distance :
  row_clock (mkShot 0 0 1 (JStr "A") (JStr "T") 12 None (Some 1) None None) = "Q1  :00"
  /\ row_distance (mkShot 0 0 1 (JStr "A") (JStr "T") 1e21 None None None None)
     = "Distance: 1e+21 ft".
Proof. vm_compute. split; reflexivity. Qed.

(** C9, as the listener has it.  The tooltip has the rows of the player,
    the result and the distance, then the date if the record has one, then
    the period and clock if the record has a period.  The distance reads
    "NA" when it is not finite and else as [toFixed(1)] writes it, which
    below [10^21] is digits, a point and one digit.  The clock is the
    minutes, a colon and the seconds padded with zeros to two characters:
    absent minutes read as the empty string, absent seconds as "00". *)
Theorem tooltip_rows_shape (toISOString : Date -> string) (d : shot) :
  tooltip_rows toISOString d
  = ([row_player d; row_result d; row_distance d]
     ++ match __date d with
        | Some t => [("Date: " ++ take_str 10 (toISOString t))%string]
        | None => []
        end
     ++ match __q d with
        | Some q => [("Q" ++ NumberToString q ++ "  " ++ text_or_empty (__mins d)
                      ++ ":" ++ padStart0 2 (text_or_empty (__secs d)))%string]
        | None => []
        end)%list
  /\ (isFinite (__dist d) = false -> row_distance d = "Distance: NA ft")
  /\ (isFinite (__dist d) = true
      -> row_distance d = "Distance: " ++ toFixed (__dist d) 1 ++ " ft")
  /\ (forall neg num den,
         exact (__dist d) = Some (neg, num, den) -> (num < 10 ^ 21 * den)%Z ->
         exists whole c,
           row_distance d
           = "Distance: " ++ ((if neg && negb (num =? 0)%Z then "-" else "")
                              ++ whole ++ "." ++ String c "") ++ " ft"
           /\ all_digits whole = true /\ whole <> "" /\ is_digit c = true)
  /\ text_or_empty None = ""
  /\ padStart0 2 (text_or_empty None) = "00"
  /\ (forall o, (2 <= slen (padStart0 2 (text_or_empty o)))%Z)
  /\ padStart0 2 (text_or_empty (Some 7)) = "07"
  /\ padStart0 2 (text_or_empty (Some 30)) = "30".
Proof.
  split; [|split; [|split; [|split; [|repeat split]]]].
  - unfold tooltip_rows, row_date, row_clock.
    destruct (__date d) as [t|], (__q d) as [q|]; reflexivity.
  - intros Hfin. unfold row_distance. now rewrite Hfin.
  - intros Hfin. unfold row_distance. now rewrite Hfin.
  - intros neg num den Hex Hlt.
    destruct (toFixed1_shape _ _ _ _ Hex Hlt) as [whole [c [Hfix Hrest]]].
    exists whole, c. split; [|exact Hrest].
    unfold row_distance. now rewrite (exact_isFinite _ _ Hex), Hfix.
  - intros o. apply padStart0_length.
Qed.

End Tooltip.

(* ================================================================= *)
(** ** The order of numbers *)

Section FloatOrder.

Lemma SFcompare_refl (a : spec_float) : a <> S754_nan -> SFcompare a a = Some Eq.
Proof.
  destruct a as [s|s| |s m e]; intros H; try congruence; simpl.
  - reflexivity.
  - now destruct s.
  - rewrite Z.compare_refl, Pos.compare_cont_refl. now destruct s.
Qed.

Lemma compare_cont_antisym (p q : positive) :
  Pos.compare_cont Eq q p = CompOpp (Pos.compare_cont Eq p q).
Proof. now rewrite (Pos.compare_cont_antisym p q Eq). Qed.

Lemma SFcompare_antisym (a b : spec_float) :
  SFcompare b a = option_map CompOpp (SFcompare a b).
Proof.
  destruct a as [sa|sa| |sa ma ea], b as [sb|sb| |sb mb eb]; simpl;
    try reflexivity; try (destruct sa; reflexivity); try (destruct sb; reflexivity);
    try (destruct sa, sb; reflexivity).
  destruct sa, sb; simpl; try reflexivity;
    rewrite (Z.compare_antisym ea eb), (compare_cont_antisym ma mb);
    destruct (ea ?= eb); simpl; try reflexivity;
    now rewrite CompOpp_involutive.
Qed.

Lemma SFcompare_lt_trans (a b c : spec_float) :
  SFcompare a b = Some Lt -> SFcompare b c = Some Lt -> SFcompare a c = Some Lt.
Proof.
  destruct a as [sa|sa| |sa ma ea], b as [sb|sb| |sb mb eb], c as [sc|sc| |sc mc ec];
    simpl; try discriminate;
    try (destruct sa; try discriminate; destruct sb; try discriminate; destruct sc;
         try discriminate; intros; reflexivity);
    try (destruct sa; try discriminate; destruct sb; try discriminate;
         intros; reflexivity);
    try (destruct sa; try discriminate; destruct sc; try discriminate;
         intros; reflexivity);
    try (destruct sb; try discriminate; destruct sc; try discriminate;
         intros; reflexivity).
  all: try (destruct sa; intros; (discriminate || reflexivity)).
  all: try (destruct sb; intros; (discriminate || reflexivity)).
  all: try (destruct sc; intros; (discriminate || reflexivity)).
  change (Pos.compare_cont Eq ma mb) with (Pos.compare ma mb).
  change (Pos.compare_cont Eq mb mc) with (Pos.compare mb mc).
  change (Pos.compare_cont Eq ma mc) with (Pos.compare ma mc).
  destruct sa, sb, sc; try discriminate; try reflexivity;
    destruct (Z.compare_spec ea eb), (Z.compare_spec eb ec), (Z.compare_spec ea ec);
    try discriminate; try reflexivity; try lia;
    destruct (Pos.compare_spec ma mb), (Pos.compare_spec mb mc), (Pos.compare_spec ma mc);
    simpl; try discriminate; try reflexivity; try lia.
Qed.

(** NaN is the number that is not equal to itself. *)
Lemma is_nan_Prim2SF (a : float) :
  PrimFloat.is_nan a = true <-> Prim2SF a = S754_nan.
Proof.
  unfold PrimFloat.is_nan. rewrite FloatAxioms.eqb_spec. unfold SFeqb. split.
  - destruct (Prim2SF a) as [s|s| |s m e] eqn:E; try reflexivity;
      rewrite SFcompare_refl by discriminate; discriminate.
  - intros ->. reflexivity.
Qed.

Lemma not_nan_Prim2SF (a : float) :
  PrimFloat.is_nan a = false <-> Prim2SF a <> S754_nan.
Proof.
  rewrite <- is_nan_Prim2SF. destruct (PrimFloat.is_nan a); split; congruence.
Qed.

(** No comparison holds of NaN. *)
Lemma leb_nan_l (a b : float) : PrimFloat.is_nan a = true -> PrimFloat.leb a b = false.
Proof.
  intros H. apply is_nan_Prim2SF in H. rewrite FloatAxioms.leb_spec, H. reflexivity.
Qed.

Lemma leb_nan_r (a b : float) : PrimFloat.is_nan b = true -> PrimFloat.leb a b = false.
Proof.
  intros H. apply is_nan_Prim2SF in H. rewrite FloatAxioms.leb_spec, H.
  unfold SFleb. now destruct (Prim2SF a).
Qed.

Lemma ltb_nan_l (a b : float) : PrimFloat.is_nan a = true -> PrimFloat.ltb a b = false.
Proof.
  intros H. apply is_nan_Prim2SF in H. rewrite FloatAxioms.ltb_spec, H. reflexivity.
Qed.

Lemma ltb_nan_r (a b : float) : PrimFloat.is_nan b = true -> PrimFloat.ltb a b = false.
Proof.
  intros H. apply is_nan_Prim2SF in H. rewrite FloatAxioms.ltb_spec, H.
  unfold SFltb. now destruct (Prim2SF a).
Qed.

(** Of two numbers, [a <= b] fails exactly when [b < a]. *)
Lemma leb_ltb (a b : float) :
  PrimFloat.is_nan a = false -> PrimFloat.is_nan b = false ->
  PrimFloat.leb a b = negb (PrimFloat.ltb b a).
Proof.
  intros Ha Hb. apply not_nan_Prim2SF in Ha, Hb.
  rewrite FloatAxioms.leb_spec, FloatAxioms.ltb_spec. unfold SFleb, SFltb.
  rewrite (SFcompare_antisym (Prim2SF a) (Prim2SF b)).
  destruct (SFcompare (Prim2SF a) (Prim2SF b)) as [[]|] eqn:E; try reflexivity.
  destruct (Prim2SF a), (Prim2SF b); simpl in E; congruence.
Qed.

Lemma ltb_trans (a b c : float) :
  PrimFloat.ltb a b = true -> PrimFloat.ltb b c = true -> PrimFloat.ltb a c = true.
Proof.
  rewrite !FloatAxioms.ltb_spec. unfold SFltb.
  destruct (SFcompare (Prim2SF a) (Prim2SF b)) as [[]|] eqn:E1; try discriminate.
  destruct (SFcompare (Prim2SF b) (Prim2SF c)) as [[]|] eqn:E2; try discriminate.
  now rewrite (SFcompare_lt_trans _ _ _ E1 E2).
Qed.

End FloatOrder.

(* ================================================================= *)
(** ** Bands, outcomes and relaxed criteria *)

Section Criteria.

Local Open Scope float_scope.

Lemma filter_two_perm {A : Type} (n p q : A -> bool) (l : list A) :
  (forall a, In a l -> n a = (p a || q a) /\ (p a && q a) = false) ->
  Permutation (filter n l) (filter p l ++ filter q l).
Proof.
  induction l as [|a l IH]; intros Hn; simpl; [constructor|].
  destruct (Hn a (or_introl eq_refl)) as [Ha Hd].
  assert (IH' := IH (fun b Hb => Hn b (or_intror Hb))).
  rewrite Ha. destruct (p a), (q a); simpl in *; try discriminate.
  - now constructor.
  - now apply Permutation_cons_app.
  - exact IH'.
Qed.

Lemma filter_three_perm {A : Type} (n p q r : A -> bool) (l : list A) :
  (forall a, n a = (p a || q a || r a)
             /\ (p a && q a) = false /\ (p a && r a) = false /\ (q a && r a) = false) ->
  Permutation (filter n l) (filter p l ++ filter q l ++ filter r l).
Proof.
  intros Hn. induction l as [|a l IH]; simpl; [constructor|].
  destruct (Hn a) as (Ha & Hpq & Hpr & Hqr).
  rewrite Ha. destruct (p a), (q a), (r a); simpl in *; try discriminate.
  - now constructor.
  - now apply Permutation_cons_app.
  - rewrite app_assoc. apply Permutation_cons_app. now rewrite <- app_assoc.
  - exact IH.
Qed.

(** The three bands on a distance: no two hold at once, and one of them
    holds exactly when the distance is a number. *)
Lemma bands_of_distance (f : float) :
  negb (PrimFloat.is_nan f)
  = (PrimFloat.leb f 10 || (PrimFloat.ltb 10 f && PrimFloat.leb f 23) || PrimFloat.ltb 23 f)
  /\ (PrimFloat.leb f 10 && (PrimFloat.ltb 10 f && PrimFloat.leb f 23)) = false
  /\ (PrimFloat.leb f 10 && PrimFloat.ltb 23 f) = false
  /\ ((PrimFloat.ltb 10 f && PrimFloat.leb f 23) && PrimFloat.ltb 23 f) = false.
Proof.
  destruct (PrimFloat.is_nan f) eqn:En.
  - rewrite (leb_nan_l f 10 En), (leb_nan_l f 23 En), (ltb_nan_r 10 f En),
      (ltb_nan_r 23 f En). now repeat split.
  - rewrite (leb_ltb f 10 En eq_refl), (leb_ltb f 23 En eq_refl).
    destruct (PrimFloat.ltb 23 f) eqn:E23.
    + rewrite (ltb_trans 10 23 f eq_refl E23). now repeat split.
    + destruct (PrimFloat.ltb 10 f); now repeat split.
Qed.

Lemma all_ok_band (b : string) (s : state) (d : shot) :
  all_ok (with_band b s) d = others_ok s d && band_ok (with_band b s) d.
Proof.
  unfold all_ok, others_ok, actor_ok, group_ok, outcome_ok, range_ok. simpl.
  rewrite <- !andb_assoc. do 3 f_equal. apply andb_comm.
Qed.

(** X1.  The three distance bands split the records that mode "All" shows:
    every record whose distance is a number is shown by exactly one of the
    modes "0–10", "10–23" and "23+" (10 itself by the first, 23 by the
    second), the other criteria being equal; a record whose distance is
    NaN is shown by none of the three. *)
Theorem distance_bands_partition (data : list shot) (s : state) :
  Permutation
    (filter numeric_dist (filtered data (with_band "All" s)))
    (filtered data (with_band "0–10" s)
     ++ filtered data (with_band "10–23" s)
     ++ filtered data (with_band "23+" s))
  /\ (forall d, __dist d = 10 ->
        band_ok (with_band "0–10" s) d = true /\ band_ok (with_band "10–23" s) d = false)
  /\ (forall d, __dist d = 23 ->
        band_ok (with_band "10–23" s) d = true /\ band_ok (with_band "23+" s) d = false).
Proof.
  split; [|split; intros d Hd; unfold band_ok; simpl; rewrite Hd; now split].
  rewrite !filtered_all_ok, filter_filter.
  apply filter_three_perm. intros d. rewrite !all_ok_band.
  change (band_ok (with_band "All" s) d) with true.
  change (band_ok (with_band "0–10" s) d) with (PrimFloat.leb (__dist d) 10).
  change (band_ok (with_band "10–23" s) d)
    with (PrimFloat.ltb 10 (__dist d) && PrimFloat.leb (__dist d) 23).
  change (band_ok (with_band "23+" s) d) with (PrimFloat.ltb 23 (__dist d)).
  unfold numeric_dist.
  destruct (bands_of_distance (__dist d)) as (H1 & H2 & H3 & H4).
  destruct (others_ok s d); simpl; [|now repeat split].
  rewrite H1. now repeat split.
Qed.

(** X2.  A record whose distance is NaN (a distance cell that is not a
    number, or no distance column) is visible only while the distance mode
    is none of the three bands and no range is brushed: any band and any
    brushed range hide it. *)
Theorem unknown_distance_hidden (data : list shot) (s : state) (d : shot) :
  In d (filtered data s) ->
  PrimFloat.is_nan (__dist d) = true ->
  brushedExtent s = None
  /\ String.eqb (distFilter s) "0–10" = false
  /\ String.eqb (distFilter s) "10–23" = false
  /\ String.eqb (distFilter s) "23+" = false.
Proof.
  intros Hin Hnan. rewrite filtered_all_ok in Hin.
  apply filter_In in Hin. destruct Hin as [_ Hok].
  unfold all_ok in Hok.
  apply andb_prop in Hok. destruct Hok as [Hok Hrange].
  apply andb_prop in Hok. destruct Hok as [_ Hband].
  split.
  - unfold range_ok in Hrange. destruct (brushedExtent s) as [[d0 d1]|]; [|reflexivity].
    rewrite (leb_nan_l _ d1 Hnan), andb_false_r in Hrange. discriminate.
  - unfold band_ok in Hband.
    rewrite (leb_nan_l _ 10 Hnan), (leb_nan_l _ 23 Hnan), (ltb_nan_r 10 _ Hnan),
      (ltb_nan_r 23 _ Hnan) in Hband. simpl in Hband.
    destruct (String.eqb (distFilter s) "0–10"); [discriminate|].
    destruct (String.eqb (distFilter s) "10–23"); [discriminate|].
    destruct (String.eqb (distFilter s) "23+"); [discriminate|]. now repeat split.
Qed.

Lemma unknown_distance_hidden_witness :
  let d := mkShot 0 0 1 (JStr "A") (JStr "T") PrimFloat.nan None None None None in
  let s := mkState [JStr "A"] [JStr "T"] "Made" "All" None in
  brushedExtent s = None
  /\ String.eqb (distFilter s) "0–10" = false
  /\ String.eqb (distFilter s) "10–23" = false
  /\ String.eqb (distFilter s) "23+" = false.
Proof.
  intros d s. apply (unknown_distance_hidden [d] s d).
  - vm_compute. left. reflexivity.
  - reflexivity.
Defined.

Lemma made_of_cases (v : jsval) : made_of v = 1%Z \/ made_of v = 0%Z.
Proof. unfold made_of. destruct (_ || _); [now left | now right]. Qed.

(** X3.  On the records that normalisation makes, where [__made] is 1 or
    0, the results "Made" and "Missed" split what "All" shows: every
    record that "All" shows is shown by exactly one of the two, the other
    criteria being equal. *)
Theorem outcome_partition (parseMDY : jsval -> option Date) (c : columns)
    (rawData : list row) (s : state) :
  Permutation
    (filtered (Viz.data parseMDY c rawData) (with_result "All" s))
    (filtered (Viz.data parseMDY c rawData) (with_result "Made" s)
     ++ filtered (Viz.data parseMDY c rawData) (with_result "Missed" s)).
Proof.
  rewrite !filtered_all_ok. apply filter_two_perm.
  intros d Hd. unfold Viz.data in Hd. apply in_map_iff in Hd.
  destruct Hd as (r & <- & _).
  unfold all_ok, actor_ok, group_ok, outcome_ok, band_ok, range_ok. simpl.
  destruct (made_of_cases (r (col_made c))) as [-> | ->]; simpl;
    destruct (includes _ _ && includes _ _); simpl; try (split; reflexivity);
    destruct (_ && _); split; reflexivity.
Qed.

Lemma andb_mono (a b a' b' : bool) :
  (a = true -> a' = true) -> (b = true -> b' = true) ->
  a && b = true -> a' && b' = true.
Proof. destruct a, b; simpl; intros Ha Hb H; try discriminate. now rewrite Ha, Hb. Qed.

(** X4.  Relaxing the criteria never hides a visible record: when a state
    selects at least the players and the teams of another, and each of its
    result, distance mode and brushed range is either the other's or off
    ("All", no range), it shows every record the other shows. *)
Theorem relaxed_state_shows_more (data : list shot) (s s' : state) (d : shot) :
  (forall v, includes (selPlayers s) v = true -> includes (selPlayers s') v = true) ->
  (forall v, includes (selTeams s) v = true -> includes (selTeams s') v = true) ->
  madeFilter s' = madeFilter s \/ madeFilter s' = "All" ->
  distFilter s' = distFilter s \/ distFilter s' = "All" ->
  brushedExtent s' = brushedExtent s \/ brushedExtent s' = None ->
  In d (filtered data s) -> In d (filtered data s').
Proof.
  intros Hp Ht Hm Hb He. rewrite !filtered_all_ok, !filter_In.
  intros [Hin Hok]. split; [exact Hin|].
  revert Hok. unfold all_ok.
  repeat apply andb_mono.
  - apply Hp.
  - apply Ht.
  - unfold outcome_ok. destruct Hm as [-> | ->]; [tauto | reflexivity].
  - unfold band_ok. destruct Hb as [-> | ->]; [tauto | reflexivity].
  - unfold range_ok. destruct He as [-> | ->]; [tauto | reflexivity].
Qed.

Lemma relaxed_state_shows_more_witness :
  In shot_A (filtered [shot_A; shot_B]
               (mkState [JStr "A"; JStr "B"] [JStr "T"] "All" "10–23" None)).
Proof.
  apply (relaxed_state_shows_more [shot_A; shot_B]
           (mkState [JStr "A"] [JStr "T"] "Made" "10–23" (Some (0, 20)))).
  - intros v Hv. change (includes ([JStr "A"] ++ [JStr "B"]) v = true).
    change (includes [JStr "A"] v = true) in Hv.
    rewrite includes_app, Hv. reflexivity.
  - intros v Hv. exact Hv.
  - right. reflexivity.
  - left. reflexivity.
  - right. reflexivity.
  - vm_compute. left. reflexivity.
Defined.

End Criteria.

(* ================================================================= *)
(** ** The document across redraws and events *)

Section Document.

Local Open Scope float_scope.

Variable d3_bin : float * float -> Z -> list float -> list bin.
Variable d3_nice : float * float -> float * float.

Lemma fresh_circles_cons (data : list shot) (next : nat) (d : shot) (l : list shot) :
  fresh_circles data next (d :: l)
  = snd (append_circle data next d) :: fresh_circles data (S next) l.
Proof. reflexivity. Qed.

(** With no circle in the document every record enters. *)
Lemma join_enter_circles (data : list shot) (l : list shot) : forall next : nat,
  D3.join (append_circle data) rebind_circle next (D3.bindIndex [] l)
  = ((next + List.length l)%nat, fresh_circles data next l).
Proof.
  induction l as [|d r IH]; intros next.
  - simpl. now rewrite Nat.add_0_r.
  - rewrite fresh_circles_cons.
    change (D3.bindIndex [] (d :: r)) with ((d, @None circle) :: D3.bindIndex [] r).
    cbn [D3.join].
    change (append_circle data next d) with (S next, snd (append_circle data next d)).
    cbv iota beta. rewrite IH. cbv iota beta.
    f_equal. cbn [List.length]. now rewrite Nat.add_succ_r.
Qed.

(** The join by index: the circles there are, as many as there are
    records, are kept for the records at their indices; the records past
    the circles enter. *)
Lemma join_circles (data : list shot) (group : list circle) :
  forall (l : list shot) (next : nat),
    D3.join (append_circle data) rebind_circle next (D3.bindIndex group l)
    = ((next + (List.length l - List.length group))%nat,
       (map (fun cd => rebind_circle (fst cd) (snd cd)) (combine group l)
        ++ fresh_circles data next (skipn (List.length group) l))%list).
Proof.
  induction group as [|c g IH]; intros l next.
  - rewrite join_enter_circles. now rewrite Nat.sub_0_r.
  - destruct l as [|d r].
    + simpl. now rewrite Nat.add_0_r.
    + change (D3.bindIndex (c :: g) (d :: r)) with ((d, Some c) :: D3.bindIndex g r).
      cbn [D3.join]. rewrite IH. reflexivity.
Qed.

Lemma redraw_dots_law (data : list shot) (s : state) (next : nat) (group : list circle) :
  redraw_dots data s next group
  = ((next + (List.length (filtered data s) - List.length group))%nat,
     (map (fun cd => rebind_circle (fst cd) (snd cd)) (combine group (filtered data s))
      ++ fresh_circles data next (skipn (List.length group) (filtered data s)))%list).
Proof.
  unfold redraw_dots. rewrite bindKey_index. apply join_circles.
Qed.

Lemma fresh_drawn_right (data : list shot) (l : list shot) : forall next : nat,
  Forall (drawn_right data) (fresh_circles data next l).
Proof.
  induction l as [|d r IH]; intros next; [constructor|].
  rewrite fresh_circles_cons. constructor; [|apply IH].
  unfold drawn_right. simpl. now repeat split.
Qed.

Lemma fresh_circles_ids (data : list shot) (l : list shot) : forall next : nat,
  map circle_id (fresh_circles data next l) = seq next (List.length l).
Proof.
  induction l as [|d r IH]; intros next; [reflexivity|].
  rewrite fresh_circles_cons. cbn [map List.length seq]. now rewrite IH.
Qed.

(** X5.  How [redraw] reconciles the circles with the visible records, by
    index: the circle at index [i] is kept, with the position and the
    colours it has, for the visible record at index [i], whatever record it
    was drawn for; the circles past the visible records are removed; every
    visible record past the circles gets a new circle. *)
Theorem dots_reconciliation (data : list shot) (s : state) (next : nat)
    (group : list circle) :
  snd (redraw_dots data s next group)
  = (map (fun cd => rebind_circle (fst cd) (snd cd)) (combine group (filtered data s))
     ++ fresh_circles data next (skipn (List.length group) (filtered data s)))%list
  /\ List.length (snd (redraw_dots data s next group)) = List.length (filtered data s)
  /\ map circle_id (snd (redraw_dots data s next group))
     = (firstn (List.length (filtered data s)) (map circle_id group)
        ++ seq next (List.length (filtered data s) - List.length group))%list
  /\ Forall (drawn_right data)
       (skipn (List.length group) (snd (redraw_dots data s next group))).
Proof.
  rewrite redraw_dots_law. cbn [snd].
  generalize (filtered data s) as l. intros l.
  split; [reflexivity|]. split; [|split].
  - rewrite List.length_app, length_map, length_combine.
    unfold fresh_circles. rewrite length_map, length_combine, length_seq, length_skipn. lia.
  - rewrite map_app, fresh_circles_ids, length_skipn. f_equal.
    revert l. induction group as [|c g IH]; intros [|d r]; simpl; try reflexivity.
    now rewrite IH.
  - revert l. induction group as [|c g IH]; intros l.
    + simpl. apply fresh_drawn_right.
    + destruct l as [|d r]; [constructor|]. simpl. apply (IH r).
Qed.

(** X6.  The first draw, at mount, draws one new circle for every record
    of the initial visible subset, in the order of the data, each at the
    position and in the colours of its own record. *)
Theorem mount_draws_every_record (data : list shot) :
  map circle_data (dots (snd (mount d3_bin d3_nice data))) = filtered data (init data)
  /\ Forall (drawn_right data) (dots (snd (mount d3_bin d3_nice data)))
  /\ map circle_id (dots (snd (mount d3_bin d3_nice data)))
     = seq 0 (List.length (filtered data (init data))).
Proof.
  unfold mount. cbn [snd]. rewrite redraw_dots_of, redraw_dots_law.
  cbn [snd dots empty_view combine map List.length skipn app next_id].
  split; [|split; [apply fresh_drawn_right | apply fresh_circles_ids]].
  generalize 0%nat. induction (filtered data (init data)) as [|d r IH]; intros n;
    [reflexivity|].
  rewrite fresh_circles_cons. cbn [map]. now rewrite IH.
Qed.

End Document.

(* ================================================================= *)
(** ** The document across events *)

Section Events.

Local Open Scope float_scope.

Variable d3_bin : float * float -> Z -> list float -> list bin.
Variable d3_nice : float * float -> float * float.

Lemma rebind_agreeing (data : list shot) (group : list circle) : forall l : list shot,
  Forall (drawn_right data) group ->
  firstn (List.length l) (map circle_data group) = firstn (List.length group) l ->
  Forall (drawn_right data)
    (map (fun cd => rebind_circle (fst cd) (snd cd)) (combine group l)).
Proof.
  induction group as [|c g IH]; intros l Hg Hl; [constructor|].
  destruct l as [|d r]; [constructor|].
  inversion Hg as [|? ? Hc Hg']; subst. simpl in Hl. injection Hl as Hd Hr.
  simpl. constructor; [|now apply IH].
  subst d. now rewrite rebind_same.
Qed.

(** X7.  When every circle is drawn for its record and the visible records
    agree with the records of the circles at the indices they share (the
    visible list only grew or shrank at its end), [redraw] leaves every
    circle at the position and in the colours of its record. *)
Theorem redraw_right_when_prefix_kept (data : list shot) (s : state) (next : nat)
    (group : list circle) :
  Forall (drawn_right data) group ->
  firstn (List.length (filtered data s)) (map circle_data group)
  = firstn (List.length group) (filtered data s) ->
  Forall (drawn_right data) (snd (redraw_dots data s next group)).
Proof.
  intros Hg Hl. rewrite redraw_dots_law. cbn [snd].
  apply Forall_app. split; [now apply rebind_agreeing | apply fresh_drawn_right].
Qed.

Lemma redraw_right_when_prefix_kept_witness :
  Forall (drawn_right [shot_A; shot_B])
    (snd (redraw_dots [shot_A; shot_B]
            (mkState [JStr "A"; JStr "B"] [JStr "T"] "All" "All" None) 1
            (snd (redraw_dots [shot_A; shot_B]
                    (mkState [JStr "A"] [JStr "T"] "All" "All" None) 0 [])))).
Proof.
  apply redraw_right_when_prefix_kept.
  - rewrite redraw_dots_law. cbn [snd combine map List.length skipn app].
    apply fresh_drawn_right.
  - vm_compute. reflexivity.
Defined.

Lemma fresh_drawn_for (data : list shot) (l : list shot) : forall next : nat,
  (forall d, In d l -> In d data) ->
  Forall (fun c => exists d, In d data /\ drawn_for data c d) (fresh_circles data next l).
Proof.
  induction l as [|d r IH]; intros next Hl; [constructor|].
  rewrite fresh_circles_cons. constructor.
  - exists d. split; [apply Hl; now left|]. unfold drawn_for. simpl. now repeat split.
  - apply IH. intros e He. apply Hl. now right.
Qed.

Lemma rebind_drawn_for (data : list shot) (group : list circle) : forall l : list shot,
  Forall (fun c => exists d, In d data /\ drawn_for data c d) group ->
  Forall (fun c => exists d, In d data /\ drawn_for data c d)
    (map (fun cd => rebind_circle (fst cd) (snd cd)) (combine group l)).
Proof.
  induction group as [|c g IH]; intros l Hg; [constructor|].
  destruct l as [|d r]; [constructor|].
  inversion Hg as [|? ? Hc Hg']; subst. simpl. constructor; [exact Hc | now apply IH].
Qed.

Lemma redraw_dots_drawn_for (data : list shot) (s : state) (next : nat)
    (group : list circle) :
  Forall (fun c => exists d, In d data /\ drawn_for data c d) group ->
  Forall (fun c => exists d, In d data /\ drawn_for data c d)
    (snd (redraw_dots data s next group)).
Proof.
  intros Hg. rewrite redraw_dots_law. cbn [snd].
  apply Forall_app. split; [now apply rebind_drawn_for|].
  apply fresh_drawn_for. intros d Hd.
  assert (Hin : In d (filtered data s)).
  { rewrite <- (firstn_skipn (List.length group) (filtered data s)).
    apply in_or_app. now right. }
  rewrite filtered_all_ok in Hin. now apply filter_In in Hin.
Qed.

Lemma dots_handle (data : list shot) (e : event) (s : state) (v : view) :
  dots (snd (handle d3_bin d3_nice data e (s, v)))
  = if is_zoom e then dots v
    else snd (redraw_dots data (assign data e s) (next_id v) (dots v)).
Proof.
  destruct e; cbn [handle snd is_zoom]; try reflexivity; now rewrite redraw_dots_of.
Qed.

(** X8.  After every sequence of events every circle of the document sits
    at the position, and has the colours, of some record of the data set:
    a circle may show another record than the one bound to it, never a
    place where no record lies. *)
Theorem circles_show_records (data : list shot) (es : list event) :
  Forall (fun c => exists d, In d data /\ drawn_for data c d)
    (dots (snd (run d3_bin d3_nice data es))).
Proof.
  induction es as [|e es IH] using rev_ind.
  - unfold run, mount. cbn [fold_left snd]. rewrite redraw_dots_of.
    apply redraw_dots_drawn_for. constructor.
  - rewrite run_snoc.
    destruct (run d3_bin d3_nice data es) as [s v]. rewrite dots_handle.
    destruct (is_zoom e); [exact IH | now apply redraw_dots_drawn_for].
Qed.

Lemma redraw_bars_fixed (data : list shot) (n : nat) (g : list rect) :
  map rect_data g = bins d3_bin data ->
  Forall (fun b => bar d3_bin d3_nice data (rect_id b) (rect_data b) = b) g ->
  redraw_bars d3_bin d3_nice data n g = (n, g).
Proof.
  intros Hdata Hbar. unfold redraw_bars.
  rewrite bindIndex_same_length by (rewrite <- Hdata; symmetry; apply length_map).
  rewrite (join_all_update
             (fun n b => (S n, bar d3_bin d3_nice data n b))
             (fun node b => bar d3_bin d3_nice data (rect_id node) b))
    by (rewrite <- Hdata; symmetry; apply length_map).
  f_equal. rewrite <- Hdata.
  now apply (map_combine_self (fun node b => bar d3_bin d3_nice data (rect_id node) b)).
Qed.

Lemma redraw_bars_kept (data : list shot) (s : state) (v : view) :
  map rect_data (bars v) = bins d3_bin data ->
  Forall (fun b => bar d3_bin d3_nice data (rect_id b) (rect_data b) = b) (bars v) ->
  bars (redraw d3_bin d3_nice data s v) = bars v.
Proof.
  intros Hdata Hbar. rewrite redraw_bars_of, redraw_bars_fixed; auto.
Qed.

Lemma bars_handle (data : list shot) (e : event) (s : state) (v : view) :
  map rect_data (bars v) = bins d3_bin data ->
  Forall (fun b => bar d3_bin d3_nice data (rect_id b) (rect_data b) = b) (bars v) ->
  bars (snd (handle d3_bin d3_nice data e (s, v))) = bars v.
Proof.
  intros Hdata Hbar.
  destruct e; cbn [handle snd]; try reflexivity; now rewrite redraw_bars_kept.
Qed.

(** X9.  The bars of the histogram are made once, by the first draw: after
    every sequence of events the document holds the very bars of the
    mount, one for every bin, none added, removed or changed. *)
Theorem bars_made_once (data : list shot) (es : list event) :
  bars (snd (run d3_bin d3_nice data es)) = bars (snd (mount d3_bin d3_nice data))
  /\ List.length (bars (snd (run d3_bin d3_nice data es)))
     = List.length (bins d3_bin data)
  /\ bars (snd (mount d3_bin d3_nice data))
     = map (fun b => bar d3_bin d3_nice data (rect_id b) (rect_data b))
         (bars (snd (mount d3_bin d3_nice data))).
Proof.
  assert (Hm : map rect_data (bars (snd (mount d3_bin d3_nice data))) = bins d3_bin data).
  { unfold mount. cbn [snd]. apply redraw_data. }
  assert (Hb : Forall (fun b => bar d3_bin d3_nice data (rect_id b) (rect_data b) = b)
                 (bars (snd (mount d3_bin d3_nice data)))).
  { unfold mount. cbn [snd]. rewrite redraw_bars_of. unfold redraw_bars.
    apply join_Forall; intros; reflexivity. }
  assert (Hrun : bars (snd (run d3_bin d3_nice data es))
                 = bars (snd (mount d3_bin d3_nice data))).
  { induction es as [|e es IH] using rev_ind; [reflexivity|].
    rewrite run_snoc. destruct (run d3_bin d3_nice data es) as [s v].
    cbn [snd] in IH. rewrite bars_handle; rewrite IH; auto. }
  split; [exact Hrun|]. split.
  - rewrite Hrun, <- Hm. symmetry. apply length_map.
  - unfold mount. cbn [snd]. apply redraw_bars_shape.
Qed.

End Events.

(* ================================================================= *)
(** ** How the listeners compose *)

Section Listeners.

Local Open Scope float_scope.

Variable d3_bin : float * float -> Z -> list float -> list bin.
Variable d3_nice : float * float -> float * float.







Lemma with_zoom_same (v : view) : with_zoom (zoom v) v = v.
Proof. now destruct v. Qed.

Lemma zoom_redraw (data : list shot) (s : state) (v : view) :
  zoom (redraw d3_bin d3_nice data s v) = zoom v.
Proof.
  unfold redraw. destruct (redraw_dots data s (next_id v) (dots v)) as [n1 cs].
  now destruct (redraw_bars d3_bin d3_nice data n1 (bars v)).
Qed.

Lemma redraw_with_zoom (data : list shot) (s : state) (v : view)
    (t : option (float * float * float)) :
  redraw d3_bin d3_nice data s (with_zoom t v)
  = with_zoom t (redraw d3_bin d3_nice data s v).
Proof. apply redraw_zoom. Qed.

Lemma handle_with_zoom (data : list shot) (e : event) (s : state) (v : view)
    (t : option (float * float * float)) :
  handle d3_bin d3_nice data e (s, with_zoom t v)
  = (fst (handle d3_bin d3_nice data e (s, v)),
     with_zoom (match e with Zoomed t' => Some t' | _ => t end)
       (snd (handle d3_bin d3_nice data e (s, v)))).
Proof.
  destruct e; cbn [handle fst snd]; try (now rewrite redraw_with_zoom); try reflexivity.
  f_equal.
  change (mkView (next_id (with_zoom t v)) (dots (with_zoom t v)) (bars (with_zoom t v))
            selection (zoom (with_zoom t v)))
    with (with_zoom t (mkView (next_id v) (dots v) (bars v) selection (zoom v))).
  apply redraw_with_zoom.
Qed.

Lemma zoom_run_still (data : list shot) (es : list event) :
  zoom (snd (run d3_bin d3_nice data (filter (fun e => negb (is_zoom e)) es))) = None.
Proof.
  induction es as [|e es IH] using rev_ind.
  - unfold run, mount. cbn [filter fold_left snd]. now rewrite zoom_redraw.
  - rewrite filter_app. cbn [filter]. destruct e; cbn [is_zoom negb];
      try (rewrite run_snoc;
           destruct (run d3_bin d3_nice data (filter (fun e => negb (is_zoom e)) es))
             as [s v]; cbn [handle snd] in *; now rewrite zoom_redraw).
    now rewrite app_nil_r.
Qed.

Lemma run_zoom_frame (data : list shot) (es : list event) :
  run d3_bin d3_nice data es
  = (fst (run d3_bin d3_nice data (filter (fun e => negb (is_zoom e)) es)),
     with_zoom (last_zoom es)
       (snd (run d3_bin d3_nice data (filter (fun e => negb (is_zoom e)) es)))).
Proof.
  induction es as [|e es IH] using rev_ind.
  - cbn [filter]. unfold last_zoom. cbn [fold_left].
    rewrite <- (zoom_run_still data []). cbn [filter]. rewrite with_zoom_same.
    now destruct (run d3_bin d3_nice data []).
  - rewrite run_snoc, IH, filter_app. unfold last_zoom. rewrite fold_left_app.
    fold (last_zoom es). cbn [filter fold_left].
    destruct (run d3_bin d3_nice data (filter (fun e => negb (is_zoom e)) es))
      as [s v] eqn:E. cbn [fst snd].
    rewrite handle_with_zoom.
    destruct e; cbn [is_zoom negb]; try (now rewrite run_snoc, E).
    rewrite app_nil_r, E. reflexivity.
Qed.

(** X11.  Zooming and panning change the transform of the court and of the
    dots and nothing else: the filter state, the circles, the bars and the
    brush are what the other events alone give, and the transform is that
    of the last zoom event (none before the first); a redraw keeps it. *)
Theorem zoom_changes_only_the_transform (data : list shot) (es : list event) :
  fst (run d3_bin d3_nice data es)
  = fst (run d3_bin d3_nice data (filter (fun e => negb (is_zoom e)) es))
  /\ dots (snd (run d3_bin d3_nice data es))
     = dots (snd (run d3_bin d3_nice data (filter (fun e => negb (is_zoom e)) es)))
  /\ bars (snd (run d3_bin d3_nice data es))
     = bars (snd (run d3_bin d3_nice data (filter (fun e => negb (is_zoom e)) es)))
  /\ brush_selection (snd (run d3_bin d3_nice data es))
     = brush_selection
         (snd (run d3_bin d3_nice data (filter (fun e => negb (is_zoom e)) es)))
  /\ zoom (snd (run d3_bin d3_nice data es)) = last_zoom es.
Proof.
  rewrite (run_zoom_frame data es) at 1 2 3 4 5. cbn [fst snd with_zoom dots bars
    brush_selection zoom]. now repeat split.
Qed.

End Listeners.

(* ================================================================= *)
(** ** Cells that hold no number *)

Section Cells.

Local Open Scope float_scope.

Variable parseMDY : jsval -> option Date.

(** X12.  The optional fields (period, minutes, seconds): a cell becomes
    null exactly when it is undefined, null, false, the empty string, or
    the number zero or NaN; any other cell becomes its number.  So the text
    "0" of a CSV cell is kept as 0 while the number 0 is dropped, and a
    text that is no numeral is kept, as NaN. *)
Theorem optional_number_cases (v : jsval) :
  (number_or_null v = None
   <-> v = JUndefined \/ v = JNull \/ v = JBool false \/ v = JStr ""
       \/ exists f, v = JNum f /\ (PrimFloat.is_zero f || PrimFloat.is_nan f) = true)
  /\ (forall f, number_or_null v = Some f -> f = ToNumber v)
  /\ (forall c s, number_or_null (JStr (String c s)) = Some (StringToNumber (String c s)))
  /\ number_or_null (JStr "0") = Some 0
  /\ number_or_null (JNum 0) = None
  /\ option_map PrimFloat.is_nan (number_or_null (JStr "OT")) = Some true.
Proof.
  split; [|split; [|split; [|split; [|split]]]].
  - unfold number_or_null. destruct v as [| |b|f|s]; simpl.
    + split; [now left | reflexivity].
    + split; [now right; left | reflexivity].
    + destruct b; split; try discriminate; try (now right; right; left); try reflexivity.
      intros [H|[H|[H|[H|[f [H _]]]]]]; discriminate.
    + destruct (PrimFloat.is_zero f || PrimFloat.is_nan f) eqn:E; simpl; split;
        try discriminate; try reflexivity.
      * intros _. right; right; right; right. now exists f.
      * intros [H|[H|[H|[H|[g [H Hg]]]]]]; try discriminate.
        injection H as ->. congruence.
    + destruct s; simpl; split; try discriminate; try reflexivity.
      * intros _. now right; right; right; left.
      * intros [H|[H|[H|[H|[g [H Hg]]]]]]; discriminate.
  - intros f. unfold number_or_null. destruct (ToBoolean v); congruence.
  - reflexivity.
  - vm_compute. reflexivity.
  - vm_compute. reflexivity.
  - vm_compute. reflexivity.
Qed.

Lemma blank_ToNumber (v : jsval) : blank v = true -> ToNumber v = 0.
Proof.
  destruct v as [| |b|f|s]; simpl; try discriminate; intros Hb.
  - reflexivity.
  - now destruct b.
  - unfold StringToNumber. now rewrite Hb.
Qed.

(** X13.  A record whose distance cell is blank (null, false, the empty
    string or white space) is taken for a shot from distance zero: its
    distance is the number 0, the tooltip reads 0.0 ft, the band "0–10"
    shows it, and it is counted among the values of the histogram. *)
Theorem blank_distance_counts_as_zero (c : columns) (r : row) :
  blank (r (col_distance c)) = true ->
  __dist (normalise parseMDY c r) = 0
  /\ row_distance (normalise parseMDY c r) = "Distance: 0.0 ft"
  /\ (forall s, band_ok (with_band "0–10" s) (normalise parseMDY c r) = true)
  /\ (forall rawData, In r rawData ->
        In 0 (filter isFinite (map __dist (Viz.data parseMDY c rawData)))).
Proof.
  intros Hb. assert (Hd : __dist (normalise parseMDY c r) = 0).
  { simpl. now apply blank_ToNumber. }
  split; [exact Hd|]. split; [|split].
  - unfold row_distance. rewrite Hd. vm_compute. reflexivity.
  - intros s. unfold band_ok. simpl distFilter. cbn [String.eqb].
    change (PrimFloat.leb (__dist (normalise parseMDY c r)) 10 = true).
    rewrite Hd. reflexivity.
  - intros rawData Hin. apply filter_In. split; [|reflexivity].
    rewrite <- Hd. unfold Viz.data. rewrite map_map.
    apply (in_map (fun x => __dist (normalise parseMDY c x))). exact Hin.
Qed.

Lemma is_nan_not_finite (f : float) : PrimFloat.is_nan f = true -> isFinite f = false.
Proof. intros H. unfold isFinite, PrimFloat.is_finite. now rewrite H. Qed.

(** X14.  A record whose distance cell is not a number (no distance
    column, or a text that is no numeral) has the distance NaN: the tooltip
    reads NA, and the histogram leaves the record out of its values. *)
Theorem unknown_distance_left_out (c : columns) (r : row) :
  PrimFloat.is_nan (ToNumber (r (col_distance c))) = true ->
  PrimFloat.is_nan (__dist (normalise parseMDY c r)) = true
  /\ row_distance (normalise parseMDY c r) = "Distance: NA ft"
  /\ (forall rawData,
        filter isFinite (map __dist (Viz.data parseMDY c (r :: rawData)))
        = filter isFinite (map __dist (Viz.data parseMDY c rawData))).
Proof.
  intros Hn. split; [exact Hn|]. split.
  - unfold row_distance. simpl __dist. now rewrite (is_nan_not_finite _ Hn).
  - intros rawData. unfold Viz.data. cbn [map filter]. simpl __dist.
    now rewrite (is_nan_not_finite _ Hn).
Qed.

End Cells.

Lemma blank_distance_counts_as_zero_witness :
  let c := mkColumns "x" "y" "made" "player" "team" "dist" "date" "q" "m" "s" in
  let r := fun k : string => if String.eqb k "dist" then JStr "  " else JStr "1" in
  let p := fun _ : jsval => @None Date in
  __dist (normalise p c r) = 0%float
  /\ row_distance (normalise p c r) = "Distance: 0.0 ft"
  /\ (forall s, band_ok (with_band "0–10" s) (normalise p c r) = true)
  /\ (forall rawData, In r rawData ->
        In 0%float (filter isFinite (map __dist (Viz.data p c rawData)))).
Proof.
  intros c r p. apply (blank_distance_counts_as_zero p c r). reflexivity.
Defined.

Lemma unknown_distance_left_out_witness :
  let c := mkColumns "x" "y" "made" "player" "team" "dist" "date" "q" "m" "s" in
  let r := fun k : string => if String.eqb k "dist" then JUndefined else JStr "1" in
  let p := fun _ : jsval => @None Date in
  PrimFloat.is_nan (__dist (normalise p c r)) = true
  /\ row_distance (normalise p c r) = "Distance: NA ft"
  /\ (forall rawData,
        filter isFinite (map __dist (Viz.data p c (r :: rawData)))
        = filter isFinite (map __dist (Viz.data p c rawData))).
Proof.
  intros c r p. apply (unknown_distance_left_out p c r). reflexivity.
Defined.

(* ================================================================= *)
(** ** The vertical domain *)

Section Domain.

Local Open Scope float_scope.

Lemma ltb_irrefl (a : float) : PrimFloat.ltb a a = false.
Proof.
  destruct (PrimFloat.is_nan a) eqn:En; [now apply ltb_nan_l|].
  apply not_nan_Prim2SF in En. rewrite FloatAxioms.ltb_spec. unfold SFltb.
  now rewrite SFcompare_refl.
Qed.

(** [Math.min(a, b)] is never above [a]. *)
Lemma Math_min_bound (a b : float) : PrimFloat.ltb a (Math_min a b) = false.
Proof.
  unfold Math_min.
  destruct (PrimFloat.is_nan a || PrimFloat.is_nan b); [now apply ltb_nan_r|].
  destruct (PrimFloat.ltb a b) eqn:Eab; [apply ltb_irrefl|].
  destruct (PrimFloat.ltb b a); [exact Eab|].
  destruct (PrimFloat.get_sign a); [apply ltb_irrefl | exact Eab].
Qed.

(** X15.  The vertical domain of the court always reaches down to -50 (the
    space behind the baseline), whatever the records: its lower end is
    never above -50, and with no numeric [y] at all the domain is
    [-50, 470]. *)
Theorem yDom_reaches_baseline (data : list shot) :
  PrimFloat.ltb (-50) (fst (yDom data)) = false
  /\ (D3.extent (map __y data) = None -> yDom data = (-50, 470)).
Proof.
  unfold yDom. destruct (D3.extent (map __y data)) as [[lo hi]|]; cbn [fst]; split.
  - apply Math_min_bound.
  - discriminate.
  - reflexivity.
  - reflexivity.
Qed.

End Domain.

(* ================================================================= *)
(** ** The list boxes *)

Section ListBoxes.

Local Open Scope float_scope.

Variable d3_bin : float * float -> Z -> list float -> list bin.
Variable d3_nice : float * float -> float * float.

Lemma pick_options_values (opts : list Controls.option_el) :
  forall (flags : list bool) (p : string),
    In p (map Controls.opt_value (filter Controls.opt_selected
                                    (Controls.pick_options flags opts))) ->
    In p (map Controls.opt_value opts).
Proof.
  induction opts as [|o r IH]; intros flags p; [intros []|].
  cbn [Controls.pick_options filter map Controls.opt_selected].
  destruct (hd false flags); cbn [map Controls.opt_value In].
  - intros [H | H]; [now left | right; now apply (IH (tl flags))].
  - intros H. right. now apply (IH (tl flags)).
Qed.

Lemma pick_options_all (opts : list Controls.option_el) :
  map Controls.opt_value
    (filter Controls.opt_selected
       (Controls.pick_options (repeat true (List.length opts)) opts))
  = map Controls.opt_value opts.
Proof.
  induction opts as [|o r IH]; [reflexivity|].
  cbn [List.length repeat Controls.pick_options hd tl filter Controls.opt_selected map
       Controls.opt_value].
  now rewrite IH.
Qed.

Lemma pick_options_mapped {A : Type} (f : A -> Controls.option_el) (l : list A) :
  map Controls.opt_value
    (filter Controls.opt_selected
       (Controls.pick_options (repeat true (List.length l)) (map f l)))
  = map Controls.opt_value (map f l).
Proof.
  rewrite <- (length_map f l). apply pick_options_all.
Qed.

Lemma multiple_starts_unselected (label : string) (options : list jsval) (value : jsval)
    (size : Z) :
  Controls.selected_values (Controls.createSelect label options value true size) = [].
Proof.
  unfold Controls.selected_values. cbn [Controls.createSelect Controls.sel_options].
  induction options as [|o r IH]; [reflexivity | exact IH].
Qed.

(** X16.  A list box made by [createSelect] with [multiple] offers the
    strings of the values, in their order, and starts with no option
    selected, whatever value is passed; what a change reports is a list of
    those strings, never the values themselves; with every option selected
    it reports all the strings. *)
Theorem list_box_reports_strings (label : string) (options : list jsval) (value : jsval)
    (size : Z) (flags : list bool) :
  map Controls.opt_value
    (Controls.sel_options (Controls.createSelect label options value true size))
  = map ToString options
  /\ Controls.selected_values (Controls.createSelect label options value true size) = []
  /\ (exists chosen,
        Controls.onchange_arg
          (Controls.pick flags (Controls.createSelect label options value true size))
        = inl chosen
        /\ forall p, In p chosen -> In p (map ToString options))
  /\ Controls.onchange_arg
       (Controls.pick (repeat true (List.length options))
          (Controls.createSelect label options value true size))
     = inl (map ToString options).
Proof.
  assert (Hv : map Controls.opt_value
                 (Controls.sel_options (Controls.createSelect label options value true size))
               = map ToString options).
  { cbn [Controls.createSelect Controls.sel_options]. rewrite map_map. reflexivity. }
  split; [exact Hv|]. split; [|split].
  - apply multiple_starts_unselected.
  - eexists. split; [reflexivity|]. intros p Hp. rewrite <- Hv.
    now apply pick_options_values in Hp.
  - unfold Controls.onchange_arg, Controls.selected_values.
    cbn [Controls.pick Controls.sel_multiple Controls.sel_options Controls.createSelect].
    f_equal. rewrite pick_options_mapped, map_map. reflexivity.
Qed.

Lemma includes_strings (l : list string) (v : jsval) :
  includes (map JStr l) v = true -> exists p, v = JStr p /\ In p l.
Proof.
  induction l as [|a l IH]; [discriminate|].
  unfold includes. cbn [map existsb]. intros H. apply orb_prop in H.
  destruct H as [H | H].
  - destruct v; try discriminate H. simpl in H. apply String.eqb_eq in H. subst.
    eexists. split; [reflexivity | now left].
  - destruct (IH H) as [p [Hp Hin]]. exists p. split; [exact Hp | now right].
Qed.

(** X17.  After a change of the players list box the selection holds the
    strings the list box reports, and a record is visible only if its
    player is one of these strings itself: a record whose player is a
    number (or any value that is not a string) is hidden after every such
    change, whatever is chosen.  The same holds of the teams list box. *)
Theorem list_box_change_compares_strings (data : list shot) (es : list event)
    (e : event) (d : shot) :
  In d (filtered data (fst (run d3_bin d3_nice data (es ++ [e])))) ->
  match e with
  | PlayersChanged chosen => exists p, __player d = JStr p /\ In p chosen
  | TeamsChanged chosen => exists t, __team d = JStr t /\ In t chosen
  | _ => True
  end.
Proof.
  rewrite run_snoc. destruct (run d3_bin d3_nice data es) as [s v].
  rewrite filtered_all_ok, filter_In. intros [_ Hok].
  unfold all_ok in Hok.
  apply andb_prop in Hok. destruct Hok as [Hok _].
  apply andb_prop in Hok. destruct Hok as [Hok _].
  apply andb_prop in Hok. destruct Hok as [Hok _].
  apply andb_prop in Hok. destruct Hok as [Hp Ht].
  destruct e; try exact I.
  - apply includes_strings. exact Hp.
  - apply includes_strings. exact Ht.
Qed.

End ListBoxes.

Lemma list_box_change_compares_strings_witness :
  exists p, __player shot_B = JStr p /\ In p ["B"].
Proof.
  apply (list_box_change_compares_strings (fun _ _ _ => []) (fun dom => dom)
           [shot_A; shot_B] [] (PlayersChanged ["B"]) shot_B).
  vm_compute. left. reflexivity.
Defined.

(* ================================================================= *)
(** ** The first draw *)

Section FirstDraw.

Local Open Scope float_scope.

(** X18.  A data set that is not empty never mounts to an empty chart:
    the first draw shows at least one record (those of the first player
    in the sort order among them). *)
Theorem first_draw_not_empty (data : list shot) :
  data <> [] ->
  exists d, In d data /\ In d (filtered data (init data))
            /\ includes (firstn 1 (allPlayers data)) (__player d) = true.
Proof.
  intros Hne. destruct data as [|d0 rest]; [congruence|]. clear Hne.
  set (data := d0 :: rest).
  assert (Hinc : includes (allPlayers data) (__player d0) = true).
  { apply includes_all_sorted. now left. }
  destruct (allPlayers data) as [|p ps] eqn:E; [discriminate Hinc|].
  assert (Hp : In p (set_from (map __player data))).
  { apply (Permutation_in p (sort_default_perm (set_from (map __player data)))).
    fold (allPlayers data). rewrite E. now left. }
  apply set_fold_from in Hp. destruct Hp as [[] | [v [Hv Hs]]].
  apply in_map_iff in Hv. destruct Hv as [d [Hd Hin]]. subst v.
  exists d. split; [exact Hin|]. split.
  - rewrite filtered_all_ok. apply filter_In. split; [exact Hin|].
    unfold all_ok, actor_ok, group_ok, outcome_ok, band_ok, range_ok.
    cbn [init selPlayers selTeams madeFilter distFilter brushedExtent].
    rewrite slice0_min, E. cbn [firstn includes existsb]. rewrite Hs.
    unfold allTeams.
    rewrite (includes_all_sorted (map __team data) (__team d))
      by (apply in_map; exact Hin).
    reflexivity.
  - cbn [firstn includes existsb]. now rewrite Hs.
Qed.

Lemma first_draw_not_empty_witness :
  exists d, In d [shot_A; shot_B]
            /\ In d (filtered [shot_A; shot_B] (init [shot_A; shot_B]))
            /\ includes (firstn 1 (allPlayers [shot_A; shot_B])) (__player d) = true.
Proof.
  apply (first_draw_not_empty [shot_A; shot_B]). discriminate.
Defined.

End FirstDraw.

(* ================================================================= *)
(** ** The tooltip element *)

Section TooltipElement.

Local Open Scope float_scope.

Variable toISOString : Date -> string.

Lemma append_empty_r (s : string) : (s ++ "")%string = s.
Proof. induction s as [|c s IH]; simpl; [reflexivity | now rewrite IH]. Qed.

(** X19.  Moving the pointer over a circle makes the tooltip opaque, puts
    it 12 pixels right of and below the pointer, and sets its HTML to the
    rows joined by line breaks: the player and the team of the record
    bound to the circle, as they are, not escaped, then the result and the
    distance, then the date and the clock when the record has them.
    Leaving the circle makes the tooltip transparent and keeps its HTML
    and its place. *)
Theorem tooltip_html (clientX clientY : float) (d : shot) (t : Tip.tip_el) :
  Tip.opacity (Tip.mousemove toISOString clientX clientY d t) = "1"
  /\ Tip.innerHTML (Tip.mousemove toISOString clientX clientY d t)
     = (("<b>" ++ ToString (__player d) ++ "</b> (" ++ ToString (__team d) ++ ")")
        ++ "<br>" ++ row_result d ++ "<br>" ++ row_distance d
        ++ (match __date d with
            | Some _ => "<br>" ++ row_date toISOString d
            | None => ""
            end
            ++ match __q d with
               | Some _ => "<br>" ++ row_clock d
               | None => ""
               end))%string
  /\ Tip.left (Tip.mousemove toISOString clientX clientY d t)
     = (NumberToString (clientX + 12) ++ "px")%string
  /\ Tip.top (Tip.mousemove toISOString clientX clientY d t)
     = (NumberToString (clientY + 12) ++ "px")%string
  /\ Tip.mouseleave (Tip.mousemove toISOString clientX clientY d t)
     = Tip.mkTip "0" (Tip.innerHTML (Tip.mousemove toISOString clientX clientY d t))
         (Tip.left (Tip.mousemove toISOString clientX clientY d t))
         (Tip.top (Tip.mousemove toISOString clientX clientY d t)).
Proof.
  split; [reflexivity|]. split; [|now repeat split].
  cbn [Tip.mousemove Tip.innerHTML]. unfold tooltip_rows, row_date, row_clock.
  destruct (__date d) as [t0|], (__q d) as [q|]; rewrite ?append_empty_r; reflexivity.
Qed.

End TooltipElement.

(* ================================================================= *)
(** ** The list boxes at mount *)

Section ListBoxesAtMount.

Lemma sorted_set_not_empty (l : list jsval) (v : jsval) :
  In v l -> sort_default (set_from l) <> [].
Proof.
  intros Hin Hnil. pose proof (includes_all_sorted l v Hin) as H.
  rewrite Hnil in H. discriminate H.
Qed.

(** X20.  At mount the two list boxes show no option selected, although
    the selection they stand for is not empty: the first players, and all
    the teams, of a data set that is not empty are selected in the filter
    state and drawn. *)
Theorem list_boxes_start_unselected (data : list shot) :
  data <> [] ->
  Controls.selected_values (Controls.playerSelect data) = []
  /\ Controls.selected_values (Controls.teamSelect data) = []
  /\ selPlayers (init data) <> []
  /\ selTeams (init data) <> []
  /\ map Controls.opt_value (Controls.sel_options (Controls.playerSelect data))
     = map ToString (allPlayers data).
Proof.
  intros Hne. destruct data as [|d0 rest]; [congruence|]. clear Hne.
  split; [apply multiple_starts_unselected|].
  split; [apply multiple_starts_unselected|]. split; [|split].
  - cbn [init selPlayers]. rewrite slice0_min.
    pose proof (sorted_set_not_empty (map __player (d0 :: rest)) (__player d0)
                  (or_introl eq_refl)) as H.
    unfold allPlayers. destruct (sort_default _); [congruence | discriminate].
  - cbn [init selTeams]. unfold allTeams.
    apply (sorted_set_not_empty (map __team (d0 :: rest)) (__team d0)). now left.
  - unfold Controls.playerSelect. cbn [Controls.createSelect Controls.sel_options].
    now rewrite map_map.
Qed.

Lemma list_boxes_start_unselected_witness :
  Controls.selected_values (Controls.playerSelect [shot_A; shot_B]) = []
  /\ Controls.selected_values (Controls.teamSelect [shot_A; shot_B]) = []
  /\ selPlayers (init [shot_A; shot_B]) <> []
  /\ selTeams (init [shot_A; shot_B]) <> []
  /\ map Controls.opt_value (Controls.sel_options (Controls.playerSelect [shot_A; shot_B]))
     = map ToString (allPlayers [shot_A; shot_B]).
Proof.
  apply (list_boxes_start_unselected [shot_A; shot_B]). discriminate.
Defined.

End ListBoxesAtMount.
